(** * Trading expectancy calculator: the computational core of [app.py]

    A shallow embedding of the two functions of [src/app.py] that carry
    logic, [run_simulation] (lines 64-165) and [calculate_losing_streak]
    (lines 39-61), together with the properties the specification states
    about them.

    Numbers.  Python's [float] is read in two ways.

    - In binary64 ([Module Binary64]): a [float] is an IEEE 754 double
      ([PrimFloat]), with the rounding, the overflow to infinity and the
      NaN of the machine.  Every property that depends on the value of a
      sum, a product or a quotient is stated in this reading.
    - Exactly: rationals ([Q]) in the simulator and reals ([R]) in the
      losing-streak estimator.  Rounding, overflow and NaN are outside
      this reading, which serves for what does not depend on them: the
      shape of the ledger, the branch taken, the exception raised, the
      formula a field is computed by.

    Python integers that count things ([trade_count], [win_count], the
    trade number) are [nat].

    Effects.  A Python exception is a [Raise] in a small error monad; the
    division operator [/] raises [ZeroDivisionError] on a zero divisor,
    indexing raises [IndexError], [math.log] raises [ValueError] outside
    its domain.  The global NumPy generator that [np.random.choice] reads
    and advances is an explicit state threaded through [run_simulation]. *)

From Stdlib Require Import Floats.
From Stdlib Require Import List Bool Arith ZArith Lia.
From Stdlib Require Import QArith Qabs Qpower Lqa.
From Stdlib Require Import Reals Lra.
Import ListNotations.

(** A decimal literal stands for the nearest double, as in Python. *)
Set Warnings "-inexact-float".

(** ** Python exceptions as an error monad *)

Inductive exn : Type :=
| ZeroDivisionError
| IndexError
| ValueError.

Inductive result (A : Type) : Type :=
| Return (a : A)
| Raise (e : exn).

Arguments Return {A} a.
Arguments Raise {A} e.

Definition bind {A B : Type} (m : result A) (k : A -> result B) : result B :=
  match m with
  | Return a => k a
  | Raise e => Raise e
  end.

Notation "x <- m ;; k" := (bind m (fun x => k))
  (at level 61, m at next level, right associativity).

(** [for i in idx: st = body(i, st)], stopping at the first exception. *)
Fixpoint for_each {S : Type} (idx : list nat) (body : nat -> S -> result S)
  (st : S) : result S :=
  match idx with
  | [] => Return st
  | i :: rest => st' <- body i st ;; for_each rest body st'
  end.

(** [range(n)] *)
Definition range (n : nat) : list nat := seq 0 n.

Section Simulator.

Local Open Scope Q_scope.

(** ** Numbers *)

(** [x > y] *)
Definition Qgt_bool (x y : Q) : bool := negb (Qle_bool x y).

(** [x / y] on Python floats (and [int / int]): a zero divisor raises. *)
Definition py_div (x y : Q) : result Q :=
  if Qeq_bool y 0 then Raise ZeroDivisionError else Return (x / y).

(** An [int] used in float arithmetic. *)
Definition of_nat (n : nat) : Q := inject_Z (Z.of_nat n).

(** [sum(l)] and pandas' [Series.mean()].  The mean of an empty series is
    NaN in pandas; both call sites guard against it (lines 144-145), and
    here the quotient by zero is Rocq's [0]. *)
Definition Qsum (l : list Q) : Q := fold_right Qplus 0 l.

Definition mean (l : list Q) : Q := Qsum l / of_nat (length l).

(** ** Data model *)

(** The two labels [np.random.choice] draws from. *)
Inductive outcome : Type := Win | Loss.

Definition is_win (o : outcome) : bool :=
  match o with Win => true | Loss => false end.

Definition is_loss (o : outcome) : bool :=
  match o with Win => false | Loss => true end.

(** One row of the ledger: the dict appended at lines 124-133. *)
Record TradeRecord : Type := mkTrade {
  Trade_Number : nat;
  Win_Loss : outcome;
  Pre_Balance : Q;
  Risk_Amount : Q;
  PnL : Q;
  After_Balance : Q;
  Drawdown : Q;
  Peak_Balance : Q
}.

(** The summary dict of lines 153-163. *)
Record Summary : Type := mkSummary {
  Final_Balance : Q;
  Profit : Q;
  Return_pct : Q;
  Max_Drawdown : Q;
  Expectancy : Q;
  Expectancy_R : Q;
  Actual_Win_Rate : Q;
  Minimum_Win_Rate : Q;
  Trades : nat
}.

(** The variables the loop of lines 95-133 carries from one trade to the
    next (lines 79-85). *)
Record LoopState : Type := mkState {
  current_balance : Q;
  peak_balance : Q;
  max_drawdown : Q;
  win_count : nat;
  results : list TradeRecord
}.

(** ** The random source

    [np.random.choice(['Win', 'Loss'], size, p=[p, 1-p])] reads and
    advances NumPy's global generator.  The generator is a library, so it
    is an interface here: [draw] is the sampling itself, which returns an
    array of the requested size, and [np_random_seed] is the state that
    [np.random.seed(k)] installs. *)
Class RandomSource (G : Type) : Type := {
  np_random_seed : Z -> G;
  draw : G -> nat -> Q -> list outcome * G;
  draw_size : forall g size p, length (fst (draw g size p)) = size
}.

(** NumPy checks the probability vector [[p, 1-p]] before sampling and
    raises [ValueError] when an entry is negative. *)
Definition np_random_choice {G : Type} `{RandomSource G}
  (g : G) (size : nat) (p : Q) : result (list outcome * G) :=
  if Qle_bool 0 p && Qle_bool 0 (1 - p)
  then Return (draw g size p)
  else Raise ValueError.

(** ** [run_simulation] *)

(** Lines 79-85. *)
Definition initial_state (account_balance : Q) : LoopState :=
  {| current_balance := account_balance;
     peak_balance := account_balance;
     max_drawdown := 0;
     win_count := 0;
     results := [] |}.

(** The loop body, lines 96-133, for trade [i] (0-based). *)
Definition trade (reward_risk risk_percent : Q) (outcomes : list outcome)
  (i : nat) (st : LoopState) : result LoopState :=
  let pre_balance := current_balance st in
  let risk_amount := current_balance st * risk_percent in
  match nth_error outcomes i with
  | None => Raise IndexError
  | Some o =>
      let pnl :=
        match o with
        | Win => risk_amount * reward_risk
        | Loss => - risk_amount
        end in
      let win_count' :=
        match o with
        | Win => S (win_count st)
        | Loss => win_count st
        end in
      let current_balance' := current_balance st + pnl in
      let peak_balance' :=
        if Qgt_bool current_balance' (peak_balance st)
        then current_balance' else peak_balance st in
      let current_drawdown :=
        if Qgt_bool peak_balance' 0
        then (peak_balance' - current_balance') / peak_balance' * 100
        else 0 in
      let max_drawdown' :=
        if Qgt_bool current_drawdown (max_drawdown st)
        then current_drawdown else max_drawdown st in
      Return
        {| current_balance := current_balance';
           peak_balance := peak_balance';
           max_drawdown := max_drawdown';
           win_count := win_count';
           results := results st ++
             [ {| Trade_Number := i + 1;
                  Win_Loss := o;
                  Pre_Balance := pre_balance;
                  Risk_Amount := risk_amount;
                  PnL := pnl;
                  After_Balance := current_balance';
                  Drawdown := current_drawdown;
                  Peak_Balance := peak_balance' |} ] |}
  end.

(** Lines 95-133: [for i in range(trade_count)]. *)
Definition simulate_trades (account_balance reward_risk risk_percent : Q)
  (outcomes : list outcome) (trade_count : nat) : result LoopState :=
  for_each (range trade_count) (trade reward_risk risk_percent outcomes)
    (initial_state account_balance).

(** [df[df['Win/Loss'] == label]['P&L']] *)
Definition pnl_of (keep : outcome -> bool) (df : list TradeRecord) : list Q :=
  map PnL (filter (fun r => keep (Win_Loss r)) df).

(** Lines 139-163: the summary statistics, from the final loop state. *)
Definition summarize (account_balance win_rate reward_risk : Q)
  (trade_count : nat) (st : LoopState) : result Summary :=
  let df := results st in
  actual_win_rate <- py_div (of_nat (win_count st)) (of_nat trade_count) ;;
  let profit := current_balance st - account_balance in
  q <- py_div profit account_balance ;;
  let return_pct := q * 100 in
  let avg_win :=
    if (0 <? win_count st)%nat then mean (pnl_of is_win df) else 0 in
  let avg_loss :=
    if (0 <? trade_count - win_count st)%nat
    then Qabs (mean (pnl_of is_loss df)) else 0 in
  let expectancy := (win_rate * avg_win) - ((1 - win_rate) * avg_loss) in
  let expectancy_r :=
    if Qgt_bool avg_loss 0 then expectancy / avg_loss else 0 in
  min_win_rate <- py_div 1 (1 + reward_risk) ;;
  Return
    {| Final_Balance := current_balance st;
       Profit := profit;
       Return_pct := return_pct;
       Max_Drawdown := max_drawdown st;
       Expectancy := expectancy;
       Expectancy_R := expectancy_r;
       Actual_Win_Rate := actual_win_rate * 100;
       Minimum_Win_Rate := min_win_rate * 100;
       Trades := trade_count |}.

(** Lines 64-165.  The result is the pair [(df, summary)] and the state in
    which the call leaves the generator. *)
Definition run_simulation {G : Type} `{RandomSource G} (g : G)
  (account_balance win_rate reward_risk risk_percent : Q)
  (trade_count : nat) : result (list TradeRecord * Summary * G) :=
  drawn <- np_random_choice g trade_count win_rate ;;
  let outcomes := fst drawn in
  st <- simulate_trades account_balance reward_risk risk_percent
          outcomes trade_count ;;
  summary <- summarize account_balance win_rate reward_risk trade_count st ;;
  Return (results st, summary, snd drawn).

(** The caller's contract on the five inputs (the StrategyParameters of the
    specification): what "valid parameters" means below. *)
Definition valid_parameters
  (account_balance win_rate reward_risk risk_percent : Q)
  (trade_count : nat) : Prop :=
  0 < account_balance /\
  (0 < win_rate /\ win_rate <= 1) /\
  0 < reward_risk /\
  (0 < risk_percent /\ risk_percent <= 1) /\
  (1 <= trade_count)%nat.

End Simulator.

(** ** A scripted random source

    An instance of the generator interface for running the simulator on
    chosen outcome sequences: the seed is the script.  Its binary digits
    are read from the least significant one, a 1 is a Win and a 0 a Loss,
    and the state remembers the position reached. *)
Record Scripted : Type := mkScripted {
  script : N;
  position : nat
}.

Fixpoint scripted_outcomes (k : N) (pos size : nat) : list outcome :=
  match size with
  | O => []
  | S size' =>
      (if N.testbit k (N.of_nat pos) then Win else Loss) ::
      scripted_outcomes k (S pos) size'
  end.

Fixpoint scripted_outcomes_size (k : N) (pos size : nat) :
  length (scripted_outcomes k pos size) = size :=
  match size with
  | O => eq_refl
  | S size' => f_equal S (scripted_outcomes_size k (S pos) size')
  end.

#[export] Instance Scripted_source : RandomSource Scripted := {|
  np_random_seed := fun k => {| script := Z.to_N k; position := 0 |};
  draw := fun g size _ =>
    (scripted_outcomes (script g) (position g) size,
     {| script := script g; position := position g + size |});
  draw_size := fun g size _ =>
    scripted_outcomes_size (script g) (position g) size
|}.

(** ** [calculate_losing_streak] *)

Section Estimator.

Local Open Scope R_scope.

(** What the estimator returns: the [int] literal [0] of line 53, a
    finite [float], or [float('inf')]. *)
Inductive value : Type :=
| PyInt (z : Z)
| PyFloat (x : R)
| PyInf.

(** [x / y] on floats: a zero divisor raises. *)
Definition float_div (x y : R) : result R :=
  if Req_dec_T y 0 then Raise ZeroDivisionError else Return (x / y).

(** [math.log(x)]: the natural logarithm, a [ValueError] unless [x > 0]. *)
Definition math_log (x : R) : result R :=
  if Rlt_dec 0 x then Return (ln x) else Raise ValueError.

(** Lines 39-61.  [sample_size] is a Python [int]. *)
Definition calculate_losing_streak (win_rate : R) (sample_size : Z)
  : result value :=
  if Rge_dec win_rate 1 then Return (PyInt 0)
  else
    q <- float_div 1 (1 - win_rate) ;;
    denominator <- math_log q ;;
    if Req_dec_T denominator 0 then Return PyInf
    else
      n <- math_log (IZR sample_size) ;;
      losing_streak <- float_div n denominator ;;
      Return (PyFloat losing_streak).

End Estimator.

(** * Vocabulary of the properties *)

Section Vocabulary.

Local Open Scope Q_scope.

(** What one pass through the loop body does to the state: it appends
    one record [r], built from the outcome [o] and the state [s] before
    the trade, and leaves the state [s']. *)
Record step_facts (reward_risk risk_percent : Q) (i : nat) (o : outcome)
  (s : LoopState) (r : TradeRecord) (s' : LoopState) : Prop := {
  sf_results : results s' = results s ++ [r];
  sf_number : Trade_Number r = (i + 1)%nat;
  sf_outcome : Win_Loss r = o;
  sf_pre : Pre_Balance r = current_balance s;
  sf_risk : Risk_Amount r = current_balance s * risk_percent;
  sf_pnl : PnL r =
    match o with
    | Win => Risk_Amount r * reward_risk
    | Loss => - Risk_Amount r
    end;
  sf_after : After_Balance r = Pre_Balance r + PnL r;
  sf_balance : current_balance s' = After_Balance r;
  sf_peak : Peak_Balance r =
    if Qgt_bool (After_Balance r) (peak_balance s)
    then After_Balance r else peak_balance s;
  sf_peak' : peak_balance s' = Peak_Balance r;
  sf_drawdown : Drawdown r =
    if Qgt_bool (Peak_Balance r) 0
    then (Peak_Balance r - After_Balance r) / Peak_Balance r * 100
    else 0;
  sf_max_drawdown : max_drawdown s' =
    if Qgt_bool (Drawdown r) (max_drawdown s)
    then Drawdown r else max_drawdown s;
  sf_wins : win_count s' =
    match o with
    | Win => S (win_count s)
    | Loss => win_count s
    end
}.

(** What each record satisfies on its own. *)
Definition record_ok (reward_risk risk_percent : Q) (r : TradeRecord) : Prop :=
  Risk_Amount r = Pre_Balance r * risk_percent /\
  PnL r = match Win_Loss r with
          | Win => Risk_Amount r * reward_risk
          | Loss => - Risk_Amount r
          end /\
  After_Balance r = Pre_Balance r + PnL r /\
  Drawdown r =
    (if Qgt_bool (Peak_Balance r) 0
     then (Peak_Balance r - After_Balance r) / Peak_Balance r * 100
     else 0).

(** [(df['Win/Loss'] == 'Win').sum()] and its counterpart for losses. *)
Definition count_wins (df : list TradeRecord) : nat :=
  length (filter (fun r => is_win (Win_Loss r)) df).

Definition count_losses (df : list TradeRecord) : nat :=
  length (filter (fun r => is_loss (Win_Loss r)) df).

(** The two averages as the specification words them: the mean P&L over
    the Win records, 0 when there is none, and the mean absolute P&L over
    the Loss records, 0 when there is none. *)
Definition spec_avg_win (df : list TradeRecord) : Q :=
  match pnl_of is_win df with
  | [] => 0
  | _ :: _ => Qsum (pnl_of is_win df) / of_nat (length (pnl_of is_win df))
  end.

Definition spec_avg_loss (df : list TradeRecord) : Q :=
  match pnl_of is_loss df with
  | [] => 0
  | _ :: _ =>
      Qsum (map Qabs (pnl_of is_loss df)) /
      of_nat (length (pnl_of is_loss df))
  end.

End Vocabulary.

(** * The losing-streak table of the page *)

Section StreakTable.

Local Open Scope R_scope.

(** The win rates the losing-streak table probes (lines 565-566). *)
Definition win_rates : list R :=
  [0.05; 0.10; 0.15; 0.20; 0.25; 0.30; 0.35; 0.40; 0.45; 0.50;
   0.55; 0.60; 0.65; 0.70; 0.75; 0.80; 0.85; 0.90; 0.95; 1.00].

(** Lines 568-574: one call of the estimator per win rate, in order; an
    exception in one call ends the loop.  A row is kept as the pair of
    numbers that the page then formats as text. *)
Fixpoint streak_rows (rates : list R) (sample_size : Z)
  : result (list (R * value)) :=
  match rates with
  | [] => Return []
  | win_rate :: rest =>
      losing_streak <- calculate_losing_streak win_rate sample_size ;;
      rows <- streak_rows rest sample_size ;;
      Return ((win_rate, losing_streak) :: rows)
  end.

Definition losing_streak_table (sample_size : Z)
  : result (list (R * value)) :=
  streak_rows win_rates sample_size.

End StreakTable.

(** * The simulator in binary64

    The same lines of [run_simulation], with Python's [float] as what it
    is: an IEEE 754 double.  Rounding, overflow to infinity and NaN are
    those of the machine.  The one library routine whose arithmetic is not
    fixed by the source, pandas' [Series.mean()], is a parameter
    [series_mean] of the summary. *)

Module Binary64.

Local Open Scope float_scope.

(** [x > y] and [x >= y] *)
Definition gtb (x y : float) : bool := y <? x.

Definition geb (x y : float) : bool := y <=? x.

(** [x / y] on floats: a zero divisor (of either sign) raises. *)
Definition py_div (x y : float) : result float :=
  if y =? 0 then Raise ZeroDivisionError else Return (x / y).

(** An [int] used in float arithmetic (exact below [2 ^ 53]). *)
Definition of_nat (n : nat) : float := of_uint63 (Uint63.of_Z (Z.of_nat n)).

(** [a / b] on two ints: the test for zero is on the int. *)
Definition int_div (a b : nat) : result float :=
  match b with
  | O => Raise ZeroDivisionError
  | S _ => Return (of_nat a / of_nat b)
  end.

(** Python's [sum(l)]: from 0, left to right. *)
Definition total (l : list float) : float := fold_left add l 0.

(** One row of the ledger (lines 124-133). *)
Record TradeRecord : Type := mkTrade {
  Trade_Number : nat;
  Win_Loss : outcome;
  Pre_Balance : float;
  Risk_Amount : float;
  PnL : float;
  After_Balance : float;
  Drawdown : float;
  Peak_Balance : float
}.

(** The summary dict (lines 153-163). *)
Record Summary : Type := mkSummary {
  Final_Balance : float;
  Profit : float;
  Return_pct : float;
  Max_Drawdown : float;
  Expectancy : float;
  Expectancy_R : float;
  Actual_Win_Rate : float;
  Minimum_Win_Rate : float;
  Trades : nat
}.

(** The loop variables (lines 79-85). *)
Record LoopState : Type := mkState {
  current_balance : float;
  peak_balance : float;
  max_drawdown : float;
  win_count : nat;
  results : list TradeRecord
}.

(** NumPy's global generator, with the probability a double. *)
Class RandomSource (G : Type) : Type := {
  np_random_seed : Z -> G;
  draw : G -> nat -> float -> list outcome * G;
  draw_size : forall g size p, length (fst (draw g size p)) = size
}.

(** NumPy's check of the probability vector [[p, 1-p]]. *)
Definition np_random_choice {G : Type} `{RandomSource G}
  (g : G) (size : nat) (p : float) : result (list outcome * G) :=
  if (0 <=? p) && (0 <=? 1 - p)
  then Return (draw g size p)
  else Raise ValueError.

(** Lines 79-85. *)
Definition initial_state (account_balance : float) : LoopState :=
  {| current_balance := account_balance;
     peak_balance := account_balance;
     max_drawdown := 0;
     win_count := 0;
     results := [] |}.

(** The loop body, lines 96-133, for trade [i] (0-based). *)
Definition trade (reward_risk risk_percent : float)
  (outcomes : list outcome) (i : nat) (st : LoopState) : result LoopState :=
  let pre_balance := current_balance st in
  let risk_amount := current_balance st * risk_percent in
  match nth_error outcomes i with
  | None => Raise IndexError
  | Some o =>
      let pnl :=
        match o with
        | Win => risk_amount * reward_risk
        | Loss => - risk_amount
        end in
      let win_count' :=
        match o with
        | Win => S (win_count st)
        | Loss => win_count st
        end in
      let current_balance' := current_balance st + pnl in
      let peak_balance' :=
        if gtb current_balance' (peak_balance st)
        then current_balance' else peak_balance st in
      let current_drawdown :=
        if gtb peak_balance' 0
        then (peak_balance' - current_balance') / peak_balance' * 100
        else 0 in
      let max_drawdown' :=
        if gtb current_drawdown (max_drawdown st)
        then current_drawdown else max_drawdown st in
      Return
        {| current_balance := current_balance';
           peak_balance := peak_balance';
           max_drawdown := max_drawdown';
           win_count := win_count';
           results := results st ++
             [ {| Trade_Number := i + 1;
                  Win_Loss := o;
                  Pre_Balance := pre_balance;
                  Risk_Amount := risk_amount;
                  PnL := pnl;
                  After_Balance := current_balance';
                  Drawdown := current_drawdown;
                  Peak_Balance := peak_balance' |} ] |}
  end.

(** Lines 95-133: [for i in range(trade_count)]. *)
Definition simulate_trades (account_balance reward_risk risk_percent : float)
  (outcomes : list outcome) (trade_count : nat) : result LoopState :=
  for_each (range trade_count) (trade reward_risk risk_percent outcomes)
    (initial_state account_balance).

(** [df[df['Win/Loss'] == label]['P&L']] *)
Definition pnl_of (keep : outcome -> bool) (df : list TradeRecord)
  : list float :=
  map PnL (filter (fun r => keep (Win_Loss r)) df).

Section Summarize.

(** pandas' [Series.mean()]. *)
Variable series_mean : list float -> float.

(** Lines 139-163. *)
Definition summarize (account_balance win_rate reward_risk : float)
  (trade_count : nat) (st : LoopState) : result Summary :=
  let df := results st in
  actual_win_rate <- int_div (win_count st) trade_count ;;
  let profit := current_balance st - account_balance in
  q <- py_div profit account_balance ;;
  let return_pct := q * 100 in
  let avg_win :=
    if (0 <? win_count st)%nat then series_mean (pnl_of is_win df) else 0 in
  let avg_loss :=
    if (0 <? trade_count - win_count st)%nat
    then abs (series_mean (pnl_of is_loss df)) else 0 in
  let expectancy := (win_rate * avg_win) - ((1 - win_rate) * avg_loss) in
  let expectancy_r :=
    if gtb avg_loss 0 then expectancy / avg_loss else 0 in
  min_win_rate <- py_div 1 (1 + reward_risk) ;;
  Return
    {| Final_Balance := current_balance st;
       Profit := profit;
       Return_pct := return_pct;
       Max_Drawdown := max_drawdown st;
       Expectancy := expectancy;
       Expectancy_R := expectancy_r;
       Actual_Win_Rate := actual_win_rate * 100;
       Minimum_Win_Rate := min_win_rate * 100;
       Trades := trade_count |}.

(** Lines 64-165. *)
Definition run_simulation {G : Type} `{RandomSource G} (g : G)
  (account_balance win_rate reward_risk risk_percent : float)
  (trade_count : nat) : result (list TradeRecord * Summary * G) :=
  drawn <- np_random_choice g trade_count win_rate ;;
  let outcomes := fst drawn in
  st <- simulate_trades account_balance reward_risk risk_percent
          outcomes trade_count ;;
  summary <- summarize account_balance win_rate reward_risk trade_count st ;;
  Return (results st, summary, snd drawn).

End Summarize.

(** A mean for running the model: the sum from left to right over the
    count. *)
Definition sequential_mean (l : list float) : float :=
  total l / of_nat (length l).

(** The caller's contract on the five inputs, on doubles. *)
Definition valid_parameters
  (account_balance win_rate reward_risk risk_percent : float)
  (trade_count : nat) : Prop :=
  (0 <? account_balance) = true /\
  ((0 <? win_rate) = true /\ (win_rate <=? 1) = true) /\
  (0 <? reward_risk) = true /\
  ((0 <? risk_percent) = true /\ (risk_percent <=? 1) = true) /\
  (1 <= trade_count)%nat.

(** The four decisions behind the insight lines (lines 474-480). *)
Record Insights : Type := mkInsights {
  is_profitable : bool;
  win_rate_sufficient : bool;
  high_drawdown : bool;
  positive_expectancy : bool
}.

Definition insights (summary : Summary) : Insights :=
  let actual_win_rate := Actual_Win_Rate summary in
  let min_win_rate := Minimum_Win_Rate summary in
  let max_drawdown := Max_Drawdown summary in
  {| is_profitable := gtb (Profit summary) 0;
     win_rate_sufficient := geb actual_win_rate min_win_rate;
     high_drawdown := gtb max_drawdown 30;
     positive_expectancy := gtb (Expectancy summary) 0 |}.

(** The scripted source of outcomes, for doubles. *)
#[export] Instance Scripted_source : RandomSource Scripted := {|
  np_random_seed := fun k => {| script := Z.to_N k; position := 0 |};
  draw := fun g size _ =>
    (scripted_outcomes (script g) (position g) size,
     {| script := script g; position := position g + size |});
  draw_size := fun g size _ =>
    scripted_outcomes_size (script g) (position g) size
|}.

(** What one pass through the loop body does to the state. *)
Record step_facts (reward_risk risk_percent : float) (i : nat) (o : outcome)
  (s : LoopState) (r : TradeRecord) (s' : LoopState) : Prop := {
  sf_results : results s' = results s ++ [r];
  sf_number : Trade_Number r = (i + 1)%nat;
  sf_outcome : Win_Loss r = o;
  sf_pre : Pre_Balance r = current_balance s;
  sf_risk : Risk_Amount r = current_balance s * risk_percent;
  sf_pnl : PnL r =
    match o with
    | Win => Risk_Amount r * reward_risk
    | Loss => - Risk_Amount r
    end;
  sf_after : After_Balance r = Pre_Balance r + PnL r;
  sf_balance : current_balance s' = After_Balance r;
  sf_peak : Peak_Balance r =
    if gtb (After_Balance r) (peak_balance s)
    then After_Balance r else peak_balance s;
  sf_peak' : peak_balance s' = Peak_Balance r;
  sf_drawdown : Drawdown r =
    if gtb (Peak_Balance r) 0
    then (Peak_Balance r - After_Balance r) / Peak_Balance r * 100
    else 0;
  sf_max_drawdown : max_drawdown s' =
    if gtb (Drawdown r) (max_drawdown s)
    then Drawdown r else max_drawdown s;
  sf_wins : win_count s' =
    match o with
    | Win => S (win_count s)
    | Loss => win_count s
    end
}.

End Binary64.

(** * Signs of doubles

    Read on the specification [spec_float] of a double. *)


(** A positive number or plus infinity. *)
Definition positive_number (x : spec_float) : bool :=
  match x with
  | S754_finite false _ _ | S754_infinity false => true
  | _ => false
  end.


(** Linear arithmetic over the rationals and over the reals. *)
Ltac lraQ := Lqa.lra.
Ltac nraQ := Lqa.nra.
Ltac lraR := Lra.lra.

(** * Properties of the simulator *)

Section SimulatorProperties.

Local Open Scope Q_scope.

(** ** Comparisons and division *)

Lemma Qgt_bool_true (x y : Q) : Qgt_bool x y = true <-> y < x.
Proof.
  unfold Qgt_bool. rewrite negb_true_iff.
  split; intro H.
  - apply Qnot_le_lt. intro Hle. apply Qle_bool_iff in Hle. congruence.
  - destruct (Qle_bool x y) eqn:E; [|reflexivity].
    apply Qle_bool_iff in E. exfalso. exact (Qlt_not_le _ _ H E).
Qed.

Lemma Qgt_bool_false (x y : Q) : Qgt_bool x y = false <-> x <= y.
Proof.
  unfold Qgt_bool. rewrite negb_false_iff. apply Qle_bool_iff.
Qed.

Lemma py_div_nonzero (x y : Q) : ~ y == 0 -> py_div x y = Return (x / y).
Proof.
  intro Hy. unfold py_div.
  destruct (Qeq_bool y 0) eqn:E; [|reflexivity].
  apply Qeq_bool_iff in E. contradiction.
Qed.

Lemma py_div_inv (x y q : Q) :
  py_div x y = Return q -> ~ y == 0 /\ q = x / y.
Proof.
  unfold py_div. destruct (Qeq_bool y 0) eqn:E; [discriminate|].
  intro H. inversion H. split; [|reflexivity].
  now apply Qeq_bool_neq.
Qed.

Lemma of_nat_pos (n : nat) : (1 <= n)%nat -> 0 < of_nat n.
Proof.
  intro H. unfold of_nat, Qlt. simpl. lia.
Qed.

(** ** The loop combinator *)

Lemma for_each_seq_inv {S : Type} (body : nat -> S -> result S)
  (Inv : nat -> S -> Prop) (len : nat) :
  forall start st st',
    Inv start st ->
    (forall i s s', (start <= i < start + len)%nat ->
       Inv i s -> body i s = Return s' -> Inv (Datatypes.S i) s') ->
    for_each (seq start len) body st = Return st' ->
    Inv (start + len)%nat st'.
Proof.
  induction len as [|len IH]; intros start st st' H0 Hstep Hrun; simpl in Hrun.
  - inversion Hrun; subst. now rewrite Nat.add_0_r.
  - destruct (body start st) as [s1|e] eqn:Hb; simpl in Hrun; [|discriminate].
    replace (start + Datatypes.S len)%nat with (Datatypes.S start + len)%nat by lia.
    apply (IH (Datatypes.S start) s1 st').
    + apply (Hstep start st s1); [lia|assumption|assumption].
    + intros i s s' Hi. apply Hstep. lia.
    + exact Hrun.
Qed.

Lemma for_each_seq_total {S : Type} (body : nat -> S -> result S)
  (len : nat) :
  forall start st,
    (forall i s, (start <= i < start + len)%nat ->
       exists s', body i s = Return s') ->
    exists st', for_each (seq start len) body st = Return st'.
Proof.
  induction len as [|len IH]; intros start st Hstep; simpl.
  - now exists st.
  - destruct (Hstep start st) as [s1 Hs1]; [lia|].
    rewrite Hs1. simpl.
    apply IH. intros i s Hi. apply Hstep. lia.
Qed.

(** ** One trade *)

Lemma trade_inv (reward_risk risk_percent : Q) (outcomes : list outcome)
  (i : nat) (s s' : LoopState) :
  trade reward_risk risk_percent outcomes i s = Return s' ->
  exists o r, nth_error outcomes i = Some o /\
    step_facts reward_risk risk_percent i o s r s'.
Proof.
  unfold trade. destruct (nth_error outcomes i) as [o|]; [|discriminate].
  intro H. inversion H; subst; clear H.
  eexists o, _. split; [reflexivity|].
  constructor; reflexivity.
Qed.

Lemma trade_returns (reward_risk risk_percent : Q) (outcomes : list outcome)
  (i : nat) (s : LoopState) :
  (i < length outcomes)%nat ->
  exists s', trade reward_risk risk_percent outcomes i s = Return s'.
Proof.
  intro Hi. unfold trade.
  destruct (nth_error outcomes i) as [o|] eqn:E.
  - eexists. reflexivity.
  - apply nth_error_None in E. lia.
Qed.

(** ** The whole loop *)

Lemma simulate_trades_invariant (Inv : nat -> LoopState -> Prop)
  (account_balance reward_risk risk_percent : Q) (outcomes : list outcome)
  (trade_count : nat) (st : LoopState) :
  Inv 0%nat (initial_state account_balance) ->
  (forall i o s r s', (i < trade_count)%nat -> Inv i s ->
     nth_error outcomes i = Some o ->
     step_facts reward_risk risk_percent i o s r s' -> Inv (S i) s') ->
  simulate_trades account_balance reward_risk risk_percent outcomes
    trade_count = Return st ->
  Inv trade_count st.
Proof.
  intros H0 Hstep Hrun. unfold simulate_trades, range in Hrun.
  change trade_count with (0 + trade_count)%nat.
  eapply for_each_seq_inv; [exact H0| |exact Hrun].
  intros i s s' Hi HI Hb.
  destruct (trade_inv _ _ _ _ _ _ Hb) as (o & r & Ho & Hf).
  eapply Hstep; eauto. lia.
Qed.

Lemma simulate_trades_returns
  (account_balance reward_risk risk_percent : Q) (outcomes : list outcome)
  (trade_count : nat) :
  (trade_count <= length outcomes)%nat ->
  exists st, simulate_trades account_balance reward_risk risk_percent
               outcomes trade_count = Return st.
Proof.
  intro Hlen. unfold simulate_trades, range.
  apply for_each_seq_total. intros i s Hi.
  apply trade_returns. lia.
Qed.

(** ** The whole function *)

Lemma run_simulation_inv {G : Type} `{RandomSource G} (g g' : G)
  (account_balance win_rate reward_risk risk_percent : Q)
  (trade_count : nat) (df : list TradeRecord) (summary : Summary) :
  run_simulation g account_balance win_rate reward_risk risk_percent
    trade_count = Return (df, summary, g') ->
  exists st,
    simulate_trades account_balance reward_risk risk_percent
      (fst (draw g trade_count win_rate)) trade_count = Return st /\
    df = results st /\
    summarize account_balance win_rate reward_risk trade_count st
      = Return summary /\
    g' = snd (draw g trade_count win_rate).
Proof.
  unfold run_simulation, np_random_choice.
  destruct (Qle_bool 0 win_rate && Qle_bool 0 (1 - win_rate));
    simpl; [|discriminate].
  destruct (simulate_trades _ _ _ _ _) as [st|e] eqn:Hst;
    simpl; [|discriminate].
  destruct (summarize _ _ _ _ st) as [sm|e] eqn:Hsm; simpl; [|discriminate].
  intro Hr. inversion Hr; subst. exists st. repeat split; assumption.
Qed.

Lemma summarize_returns (account_balance win_rate reward_risk : Q)
  (trade_count : nat) (st : LoopState) :
  ~ account_balance == 0 -> ~ 1 + reward_risk == 0 ->
  (1 <= trade_count)%nat ->
  exists summary,
    summarize account_balance win_rate reward_risk trade_count st
      = Return summary.
Proof.
  intros Hab Hrr Hn. unfold summarize.
  rewrite (py_div_nonzero _ (of_nat trade_count)).
  2:{ intro E. pose proof (of_nat_pos _ Hn) as Hp. rewrite E in Hp.
      exact (Qlt_irrefl _ Hp). }
  simpl. rewrite (py_div_nonzero _ account_balance) by assumption.
  simpl. rewrite (py_div_nonzero _ (1 + reward_risk)) by assumption.
  simpl. eexists. reflexivity.
Qed.

Lemma run_simulation_returns {G : Type} `{RandomSource G} (g : G)
  (account_balance win_rate reward_risk risk_percent : Q)
  (trade_count : nat) :
  valid_parameters account_balance win_rate reward_risk risk_percent
    trade_count ->
  exists df summary g',
    run_simulation g account_balance win_rate reward_risk risk_percent
      trade_count = Return (df, summary, g').
Proof.
  intros (Hab & (Hw0 & Hw1) & Hrr & _ & Hn).
  unfold run_simulation, np_random_choice.
  assert (Hp : Qle_bool 0 win_rate && Qle_bool 0 (1 - win_rate) = true).
  { apply andb_true_iff. split; apply Qle_bool_iff; lraQ. }
  rewrite Hp. simpl.
  destruct (simulate_trades_returns account_balance reward_risk risk_percent
              (fst (draw g trade_count win_rate)) trade_count) as [st Hst].
  { rewrite draw_size. lia. }
  rewrite Hst. simpl.
  destruct (summarize_returns account_balance win_rate reward_risk
              trade_count st) as [sm Hsm]; try assumption; try lraQ.
  rewrite Hsm. simpl. eauto.
Qed.

(** ** Lists that grow at the end *)

Lemma nth_error_snoc {A : Type} (l : list A) (x r : A) (k : nat) :
  nth_error (l ++ [x]) k = Some r ->
  ((k < length l)%nat /\ nth_error l k = Some r) \/
  (k = length l /\ r = x).
Proof.
  intro H. destruct (Nat.lt_ge_cases k (length l)) as [Hlt|Hge].
  - left. split; [assumption|]. now rewrite nth_error_app1 in H.
  - right. rewrite nth_error_app2 in H by assumption.
    destruct (k - length l)%nat as [|m] eqn:E; simpl in H.
    + inversion H. split; [lia|reflexivity].
    + destruct m; discriminate.
Qed.

Lemma firstn_snoc_le {A : Type} (l : list A) (x : A) (k : nat) :
  (k <= length l)%nat -> firstn k (l ++ [x]) = firstn k l.
Proof.
  intro H. rewrite firstn_app.
  replace (k - length l)%nat with 0%nat by lia.
  simpl. apply app_nil_r.
Qed.

Lemma firstn_snoc_all {A : Type} (l : list A) (x : A) :
  firstn (S (length l)) (l ++ [x]) = l ++ [x].
Proof.
  apply firstn_all2. rewrite length_app. simpl. lia.
Qed.

Lemma last_map_nth_error {A B : Type} (f : A -> B) (l : list A) (d : B)
  (k : nat) (r : A) :
  nth_error l k = Some r -> S k = length l -> last (map f l) d = f r.
Proof.
  revert k. induction l as [|a l IH]; intros k Hk Hlen; [discriminate|].
  destruct k as [|k]; simpl in *.
  - inversion Hk; subst. destruct l; [reflexivity|discriminate].
  - destruct l as [|b l]; [destruct k; discriminate|].
    apply (IH k); [assumption|]. simpl in *. lia.
Qed.

(** ** Shape of the ledger *)

Lemma ledger_shape (account_balance reward_risk risk_percent : Q)
  (outcomes : list outcome) (trade_count : nat) (st : LoopState) :
  simulate_trades account_balance reward_risk risk_percent outcomes
    trade_count = Return st ->
  length (results st) = trade_count /\
  map Trade_Number (results st) = seq 1 trade_count /\
  map Win_Loss (results st) = firstn trade_count outcomes.
Proof.
  apply (simulate_trades_invariant (fun i s =>
    length (results s) = i /\
    map Trade_Number (results s) = seq 1 i /\
    map Win_Loss (results s) = firstn i outcomes)).
  - repeat split.
  - intros i o s r s' _ (Hlen & Hnum & Hout) Ho Hf.
    destruct Hf. rewrite sf_results0. repeat split.
    + rewrite length_app. simpl. lia.
    + rewrite map_app, Hnum, seq_S. simpl. now rewrite sf_number0, Nat.add_comm.
    + rewrite map_app, Hout. simpl. rewrite sf_outcome0.
      clear - Ho. revert i Ho.
      induction outcomes as [|a l IH]; intros [|i] Ho; simpl in *;
        try discriminate.
      * now inversion Ho.
      * f_equal. now apply IH.
Qed.

(** ** What each record satisfies on its own *)

Lemma ledger_records_ok (account_balance reward_risk risk_percent : Q)
  (outcomes : list outcome) (trade_count : nat) (st : LoopState) :
  simulate_trades account_balance reward_risk risk_percent outcomes
    trade_count = Return st ->
  Forall (record_ok reward_risk risk_percent) (results st).
Proof.
  apply (simulate_trades_invariant (fun _ s =>
    Forall (record_ok reward_risk risk_percent) (results s))).
  - constructor.
  - intros i o s r s' _ IH _ Hf. destruct Hf.
    rewrite sf_results0. apply Forall_app. split; [assumption|].
    constructor; [|constructor].
    unfold record_ok. rewrite sf_outcome0, sf_pre0. repeat split.
    + assumption.
    + assumption.
    + now rewrite sf_after0, sf_pre0.
    + assumption.
Qed.

(** ** Counting wins *)

Lemma count_wins_losses (df : list TradeRecord) :
  (count_wins df + count_losses df)%nat = length df.
Proof.
  unfold count_wins, count_losses.
  induction df as [|r df IH]; [reflexivity|].
  simpl. destruct (Win_Loss r); simpl; lia.
Qed.

Lemma ledger_win_count (account_balance reward_risk risk_percent : Q)
  (outcomes : list outcome) (trade_count : nat) (st : LoopState) :
  simulate_trades account_balance reward_risk risk_percent outcomes
    trade_count = Return st ->
  win_count st = count_wins (results st).
Proof.
  apply (simulate_trades_invariant (fun _ s =>
    win_count s = count_wins (results s))).
  - reflexivity.
  - intros i o s r s' _ IH _ Hf. destruct Hf.
    rewrite sf_wins0, sf_results0, IH. unfold count_wins.
    rewrite filter_app, length_app. simpl. rewrite sf_outcome0.
    destruct o; simpl; lia.
Qed.

(** ** Balances are not negative *)

Lemma ledger_nonnegative (account_balance reward_risk risk_percent : Q)
  (outcomes : list outcome) (trade_count : nat) (st : LoopState) :
  0 <= account_balance -> 0 <= reward_risk ->
  0 <= risk_percent -> risk_percent <= 1 ->
  simulate_trades account_balance reward_risk risk_percent outcomes
    trade_count = Return st ->
  0 <= current_balance st /\
  Forall (fun r => 0 <= Pre_Balance r /\ 0 <= After_Balance r) (results st).
Proof.
  intros Hab Hrr Hrp0 Hrp1.
  apply (simulate_trades_invariant (fun _ s =>
    0 <= current_balance s /\
    Forall (fun r => 0 <= Pre_Balance r /\ 0 <= After_Balance r) (results s))).
  - split; [exact Hab|constructor].
  - intros i o s r s' _ (Hcur & Hall) _ Hf. destruct Hf.
    assert (Hrisk : 0 <= current_balance s * risk_percent) by nraQ.
    assert (Hpost : 0 <= After_Balance r).
    { rewrite sf_after0, sf_pnl0, sf_risk0, sf_pre0.
      destruct o; nraQ. }
    rewrite sf_balance0, sf_results0. split; [exact Hpost|].
    apply Forall_app. split; [exact Hall|].
    constructor; [|constructor]. rewrite sf_pre0. split; assumption.
Qed.

(** ** The summary *)

Lemma summarize_inv (account_balance win_rate reward_risk : Q)
  (trade_count : nat) (st : LoopState) (summary : Summary) :
  summarize account_balance win_rate reward_risk trade_count st
    = Return summary ->
  Expectancy summary =
    win_rate *
      (if (0 <? win_count st)%nat
       then mean (pnl_of is_win (results st)) else 0) -
    (1 - win_rate) *
      (if (0 <? trade_count - win_count st)%nat
       then Qabs (mean (pnl_of is_loss (results st))) else 0) /\
  Expectancy_R summary =
    (if Qgt_bool
          (if (0 <? trade_count - win_count st)%nat
           then Qabs (mean (pnl_of is_loss (results st))) else 0) 0
     then Expectancy summary /
          (if (0 <? trade_count - win_count st)%nat
           then Qabs (mean (pnl_of is_loss (results st))) else 0)
     else 0) /\
  Actual_Win_Rate summary
    = of_nat (win_count st) / of_nat trade_count * 100 /\
  Minimum_Win_Rate summary = 1 / (1 + reward_risk) * 100.
Proof.
  unfold summarize. intro H.
  destruct (py_div (of_nat (win_count st)) (of_nat trade_count))
    as [a|e] eqn:Ha; simpl in H; [|discriminate].
  destruct (py_div (current_balance st - account_balance) account_balance)
    as [q|e] eqn:Hq; simpl in H; [|discriminate].
  destruct (py_div 1 (1 + reward_risk)) as [m|e] eqn:Hm; simpl in H;
    [|discriminate].
  apply py_div_inv in Ha, Hm. destruct Ha as [_ ->], Hm as [_ ->].
  inversion H; subst; clear H. simpl. repeat split.
Qed.

Lemma Qsum_nonpositive (l : list Q) :
  Forall (fun x => x <= 0) l ->
  Qsum l <= 0 /\ Qsum (map Qabs l) == - Qsum l.
Proof.
  unfold Qsum. induction 1 as [|x l Hx _ [IH1 IH2]]; simpl.
  - split; lraQ.
  - rewrite IH2, (Qabs_neg x Hx). split; lraQ.
Qed.

Lemma abs_mean_nonpositive (l : list Q) :
  Forall (fun x => x <= 0) l -> (0 < length l)%nat ->
  Qabs (mean l) == Qsum (map Qabs l) / of_nat (length l).
Proof.
  intros Hall Hlen. unfold mean.
  destruct (Qsum_nonpositive l Hall) as [Hneg Habs].
  pose proof (of_nat_pos (length l) Hlen) as Hpos.
  assert (Hinv : 0 < / of_nat (length l)) by now apply Qinv_lt_0_compat.
  rewrite Habs. unfold Qdiv.
  rewrite Qabs_neg by nraQ. ring.
Qed.

Lemma loss_pnl_nonpositive (reward_risk risk_percent : Q)
  (df : list TradeRecord) :
  0 <= risk_percent ->
  Forall (record_ok reward_risk risk_percent) df ->
  Forall (fun r => 0 <= Pre_Balance r /\ 0 <= After_Balance r) df ->
  Forall (fun x => x <= 0) (pnl_of is_loss df).
Proof.
  intros Hrp Hok Hpos. unfold pnl_of.
  induction df as [|r df IH]; simpl; [constructor|].
  inversion Hok as [|? ? (Hrisk & Hpnl & _) Hok']; subst.
  inversion Hpos as [|? ? (Hpre & _) Hpos']; subst.
  destruct (Win_Loss r) eqn:E; simpl; [now apply IH|].
  constructor; [|now apply IH].
  rewrite Hpnl, Hrisk. nraQ.
Qed.

Lemma length_pnl_of_wins (df : list TradeRecord) :
  length (pnl_of is_win df) = count_wins df.
Proof. unfold pnl_of, count_wins. apply length_map. Qed.

Lemma length_pnl_of_losses (df : list TradeRecord) :
  length (pnl_of is_loss df) = count_losses df.
Proof. unfold pnl_of, count_losses. apply length_map. Qed.

(** The guarded averages of lines 144-145 are the averages of the
    specification. *)
Lemma avg_win_refines (df : list TradeRecord) :
  (if (0 <? count_wins df)%nat then mean (pnl_of is_win df) else 0)
  = spec_avg_win df.
Proof.
  unfold spec_avg_win, mean. rewrite <- length_pnl_of_wins.
  destruct (pnl_of is_win df); reflexivity.
Qed.

Lemma avg_loss_refines (reward_risk risk_percent : Q)
  (df : list TradeRecord) :
  0 <= risk_percent ->
  Forall (record_ok reward_risk risk_percent) df ->
  Forall (fun r => 0 <= Pre_Balance r /\ 0 <= After_Balance r) df ->
  (if (0 <? count_losses df)%nat
   then Qabs (mean (pnl_of is_loss df)) else 0)
  == spec_avg_loss df.
Proof.
  intros Hrp Hok Hpos.
  pose proof (loss_pnl_nonpositive _ _ _ Hrp Hok Hpos) as Hall.
  unfold spec_avg_loss. rewrite <- length_pnl_of_losses.
  destruct (pnl_of is_loss df) as [|x l] eqn:E; [reflexivity|].
  change (0 <? length (x :: l))%nat with true. cbv iota.
  apply abs_mean_nonpositive; [exact Hall|simpl; lia].
Qed.

(** ** Properties of the ledger *)

(** C3.  On valid parameters the simulator returns exactly [trade_count]
    records, numbered [1..trade_count] in order, whatever outcomes the
    random source draws. *)
Theorem C3_one_record_per_trade :
  forall (G : Type) (RS : RandomSource G) (g : G)
    (account_balance win_rate reward_risk risk_percent : Q)
    (trade_count : nat),
    valid_parameters account_balance win_rate reward_risk risk_percent
      trade_count ->
    exists df summary g',
      run_simulation g account_balance win_rate reward_risk risk_percent
        trade_count = Return (df, summary, g') /\
      length df = trade_count /\
      map Trade_Number df = seq 1 trade_count.
Proof.
  intros G RS g ab wr rr rp n Hvalid.
  destruct (run_simulation_returns g ab wr rr rp n Hvalid)
    as (df & summary & g' & Hrun).
  exists df, summary, g'. split; [exact Hrun|].
  destruct (run_simulation_inv _ _ _ _ _ _ _ _ _ Hrun)
    as (st & Hst & -> & _ & _).
  pose proof (ledger_shape _ _ _ _ _ _ Hst) as (Hlen & Hnum & _).
  split; assumption.
Qed.

Lemma C3_one_record_per_trade_witness :
  exists df summary g',
    run_simulation (np_random_seed 0 : Scripted) 10000 (1#2) 2 1 4
      = Return (df, summary, g') /\
    length df = 4%nat /\
    map Trade_Number df = seq 1 4.
Proof.
  apply (C3_one_record_per_trade Scripted _ (np_random_seed 0)
           10000 (1#2) 2 1 4).
  unfold valid_parameters, Qlt, Qle. simpl. lia.
Defined.

(** ** Properties of the summary *)

(** C5.  On valid parameters the simulator returns, and the summary's
    expectancy is [win_rate * avg_win - (1 - win_rate) * avg_loss] with
    the configured [win_rate], [avg_win] the mean P&L of the Win records
    (0 without wins) and [avg_loss] the mean absolute P&L of the Loss
    records (0 without losses); the expectancy in R is the expectancy
    divided by [avg_loss] when [avg_loss > 0] and 0 otherwise. *)
Theorem C5_expectancy :
  forall (G : Type) (RS : RandomSource G) (g : G)
    (account_balance win_rate reward_risk risk_percent : Q)
    (trade_count : nat),
    valid_parameters account_balance win_rate reward_risk risk_percent
      trade_count ->
    exists df summary g',
      run_simulation g account_balance win_rate reward_risk risk_percent
        trade_count = Return (df, summary, g') /\
      Expectancy summary
        == win_rate * spec_avg_win df - (1 - win_rate) * spec_avg_loss df /\
      (0 < spec_avg_loss df ->
       Expectancy_R summary == Expectancy summary / spec_avg_loss df) /\
      (spec_avg_loss df <= 0 -> Expectancy_R summary == 0).
Proof.
  intros G RS g ab wr rr rp n Hvalid.
  destruct (run_simulation_returns g ab wr rr rp n Hvalid)
    as (df & summary & g' & Hrun).
  exists df, summary, g'. split; [exact Hrun|].
  destruct Hvalid as (Hab & _ & Hrr & (Hrp0 & Hrp1) & _).
  destruct (run_simulation_inv _ _ _ _ _ _ _ _ _ Hrun)
    as (st & Hst & -> & Hsum & _).
  pose proof (ledger_records_ok _ _ _ _ _ _ Hst) as Hok.
  pose proof (ledger_shape _ _ _ _ _ _ Hst) as (Hlen & _).
  pose proof (ledger_win_count _ _ _ _ _ _ Hst) as Hwins.
  assert (Hnonneg : Forall (fun r => 0 <= Pre_Balance r /\
                                     0 <= After_Balance r) (results st)).
  { eapply ledger_nonnegative; [| | | |exact Hst]; lraQ. }
  assert (Hlosses : (n - win_count st)%nat = count_losses (results st)).
  { pose proof (count_wins_losses (results st)). lia. }
  destruct (summarize_inv _ _ _ _ _ _ Hsum) as (HE & HER & _).
  rewrite Hlosses in HE, HER.
  rewrite Hwins, avg_win_refines in HE.
  assert (Hal : (if (0 <? count_losses (results st))%nat
                 then Qabs (mean (pnl_of is_loss (results st))) else 0)
                == spec_avg_loss (results st)).
  { apply (avg_loss_refines rr rp); [lraQ|exact Hok|exact Hnonneg]. }
  set (avg_loss := if (0 <? count_losses (results st))%nat
                   then Qabs (mean (pnl_of is_loss (results st))) else 0)
    in *.
  repeat split.
  - rewrite HE, Hal. reflexivity.
  - intro Hpos. rewrite HER.
    assert (Hgt : Qgt_bool avg_loss 0 = true)
      by (apply Qgt_bool_true; now rewrite Hal).
    rewrite Hgt, Hal. reflexivity.
  - intro Hneg. rewrite HER.
    assert (Hgt : Qgt_bool avg_loss 0 = false)
      by (apply Qgt_bool_false; now rewrite Hal).
    rewrite Hgt. reflexivity.
Qed.

Lemma C5_expectancy_witness :
  exists df summary g',
    run_simulation (np_random_seed 5 : Scripted) 10000 (1#2) 2 (1#100) 3
      = Return (df, summary, g') /\
    Expectancy summary
      == (1#2) * spec_avg_win df - (1 - (1#2)) * spec_avg_loss df /\
    (0 < spec_avg_loss df ->
     Expectancy_R summary == Expectancy summary / spec_avg_loss df) /\
    (spec_avg_loss df <= 0 -> Expectancy_R summary == 0).
Proof.
  apply (C5_expectancy Scripted _ (np_random_seed 5)
           10000 (1#2) 2 (1#100) 3).
  unfold valid_parameters, Qlt, Qle. simpl. lia.
Defined.




(** ** The random source *)

(** Without a new seed the second of two calls starts where the first
    left the generator, and need not repeat it: on the script 1 the first
    call draws a Win and the second a Loss. *)
Example unseeded_calls_differ :
  exists df1 s1 g1 df2 s2 g2,
    run_simulation (np_random_seed 1 : Scripted) 10000 (1#2) 2 (1#100) 1
      = Return (df1, s1, g1) /\
    run_simulation g1 10000 (1#2) 2 (1#100) 1 = Return (df2, s2, g2) /\
    map Win_Loss df1 = [Win] /\ map Win_Loss df2 = [Loss].
Proof.
  do 6 eexists. split; [vm_compute; reflexivity|].
  split; [vm_compute; reflexivity|].
  split; reflexivity.
Qed.

End SimulatorProperties.

(** * Properties of the losing-streak estimator *)

Section EstimatorProperties.

Local Open Scope R_scope.

Lemma float_div_nonzero (x y : R) :
  y <> 0 -> float_div x y = Return (x / y).
Proof.
  intro Hy. unfold float_div. destruct (Req_dec_T y 0); [contradiction|].
  reflexivity.
Qed.

Lemma math_log_positive (x : R) : 0 < x -> math_log x = Return (ln x).
Proof.
  intro Hx. unfold math_log. destruct (Rlt_dec 0 x); [reflexivity|].
  contradiction.
Qed.

(** Below a win rate of 1 the denominator of the formula is the logarithm
    of a number that is at least 1 when the win rate is at least 0. *)
Lemma odds_positive (win_rate : R) : win_rate < 1 -> 0 < 1 / (1 - win_rate).
Proof.
  intro H. apply Rdiv_lt_0_compat; lraR.
Qed.

Lemma odds_above_1 (win_rate : R) :
  0 < win_rate < 1 -> 1 < 1 / (1 - win_rate).
Proof.
  intros [H0 H1].
  apply (Rmult_lt_reg_r (1 - win_rate)); [lraR|].
  unfold Rdiv. rewrite Rmult_assoc, Rinv_l by lraR. lraR.
Qed.

Lemma denominator_positive (win_rate : R) :
  0 < win_rate < 1 -> 0 < ln (1 / (1 - win_rate)).
Proof.
  intro H. rewrite <- ln_1. apply ln_increasing; [lraR|].
  now apply odds_above_1.
Qed.

(** C7.  Whatever the sample size, the estimator returns the integer 0
    when [win_rate >= 1] and positive infinity when [win_rate = 0]; in
    neither case does it raise. *)
Theorem C7_losing_streak_sentinels :
  forall sample_size : Z,
    (forall win_rate : R, win_rate >= 1 ->
       calculate_losing_streak win_rate sample_size = Return (PyInt 0)) /\
    calculate_losing_streak 0 sample_size = Return PyInf.
Proof.
  intro n. split.
  - intros w Hw. unfold calculate_losing_streak.
    destruct (Rge_dec w 1); [reflexivity|contradiction].
  - unfold calculate_losing_streak.
    destruct (Rge_dec 0 1) as [H|_]; [lraR|].
    rewrite float_div_nonzero by lraR. simpl.
    rewrite math_log_positive by (apply odds_positive; lraR). simpl.
    replace (1 / (1 - 0)) with 1 by (field; lraR).
    rewrite ln_1. destruct (Req_dec_T 0 0) as [_|H]; [reflexivity|].
    now contradiction H.
Qed.

Lemma C7_losing_streak_sentinels_witness :
  calculate_losing_streak 1 100 = Return (PyInt 0).
Proof.
  apply (proj1 (C7_losing_streak_sentinels 100) 1). lraR.
Defined.

End EstimatorProperties.

(** * Further properties of the simulator *)

Section SimulatorFurther.

Local Open Scope Q_scope.

(** ** Division by zero *)

Lemma py_div_zero (x y : Q) : y == 0 -> py_div x y = Raise ZeroDivisionError.
Proof.
  intro Hy. unfold py_div. now rewrite (Qeq_eq_bool _ _ Hy).
Qed.

Lemma of_nat_zero (n : nat) : of_nat n == 0 <-> n = 0%nat.
Proof.
  unfold of_nat, Qeq. simpl. lia.
Qed.

(** X6.  For a win rate between 0 and 1, [run_simulation] fails exactly
    when a divisor is zero, and then with [ZeroDivisionError]: with no
    trades ([win_count / trade_count], line 139), with a starting balance
    of zero ([profit / account_balance], line 141) or with a reward:risk
    ratio of -1 ([1 / (1 + reward_risk)], line 150).  Otherwise it
    returns. *)
Theorem run_simulation_fails_on_zero_divisor_only :
  forall (G : Type) (RS : RandomSource G) (g : G)
    (account_balance win_rate reward_risk risk_percent : Q)
    (trade_count : nat),
    0 <= win_rate -> win_rate <= 1 ->
    (trade_count = 0%nat \/ account_balance == 0 \/ reward_risk == -(1) ->
     run_simulation g account_balance win_rate reward_risk risk_percent
       trade_count = Raise ZeroDivisionError) /\
    (trade_count <> 0%nat -> ~ account_balance == 0 ->
     ~ reward_risk == -(1) ->
     exists df summary g',
       run_simulation g account_balance win_rate reward_risk risk_percent
         trade_count = Return (df, summary, g')).
Proof.
  intros G RS g ab wr rr rp n Hw0 Hw1.
  unfold run_simulation, np_random_choice.
  assert (Hp : Qle_bool 0 wr && Qle_bool 0 (1 - wr) = true).
  { apply andb_true_iff. split; apply Qle_bool_iff; lraQ. }
  rewrite Hp. simpl.
  destruct (simulate_trades_returns ab rr rp (fst (draw g n wr)) n)
    as [st Hst].
  { rewrite draw_size. lia. }
  rewrite Hst. simpl. unfold summarize. split.
  - intro Hbad.
    destruct (Nat.eq_dec n 0) as [Hn|Hn].
    { rewrite (py_div_zero _ (of_nat n)) by now apply of_nat_zero.
      reflexivity. }
    rewrite (py_div_nonzero _ (of_nat n)) by now rewrite of_nat_zero.
    simpl.
    destruct (Qeq_dec ab 0) as [Hab|Hab].
    { rewrite (py_div_zero _ ab) by assumption. reflexivity. }
    rewrite (py_div_nonzero _ ab) by assumption. simpl.
    destruct Hbad as [H|[H|H]]; [contradiction|contradiction|].
    rewrite (py_div_zero _ (1 + rr)) by (rewrite H; ring). reflexivity.
  - intros Hn Hab Hrr.
    rewrite (py_div_nonzero _ (of_nat n)) by now rewrite of_nat_zero.
    simpl. rewrite (py_div_nonzero _ ab) by assumption. simpl.
    rewrite (py_div_nonzero _ (1 + rr)).
    2:{ intro H. apply Hrr. lraQ. }
    simpl. eauto.
Qed.

Lemma run_simulation_fails_on_zero_divisor_only_witness :
  run_simulation (np_random_seed 5 : Scripted) 10000 (1#2) 2 (1#100) 0
    = Raise ZeroDivisionError /\
  run_simulation (np_random_seed 5 : Scripted) 0 (1#2) 2 (1#100) 3
    = Raise ZeroDivisionError /\
  run_simulation (np_random_seed 5 : Scripted) 10000 (1#2) (-(1)) (1#100) 3
    = Raise ZeroDivisionError /\
  exists df summary g',
    run_simulation (np_random_seed 5 : Scripted) 10000 (1#2) 2 (1#100) 3
      = Return (df, summary, g').
Proof.
  split; [|split; [|split]].
  - apply (proj1 (run_simulation_fails_on_zero_divisor_only Scripted _
                    (np_random_seed 5) 10000 (1#2) 2 (1#100) 0
                    ltac:(discriminate) ltac:(discriminate))).
    left. reflexivity.
  - apply (proj1 (run_simulation_fails_on_zero_divisor_only Scripted _
                    (np_random_seed 5) 0 (1#2) 2 (1#100) 3
                    ltac:(discriminate) ltac:(discriminate))).
    right. left. reflexivity.
  - apply (proj1 (run_simulation_fails_on_zero_divisor_only Scripted _
                    (np_random_seed 5) 10000 (1#2) (-(1)) (1#100) 3
                    ltac:(discriminate) ltac:(discriminate))).
    right. right. reflexivity.
  - apply (proj2 (run_simulation_fails_on_zero_divisor_only Scripted _
                    (np_random_seed 5) 10000 (1#2) 2 (1#100) 3
                    ltac:(discriminate) ltac:(discriminate)));
      discriminate.
Defined.

(** ** The draw and the ledger *)

(** X7.  A call draws from the generator once: the Win/Loss column of the
    ledger is the drawn array, in order, the number of wins and losses
    adds up to [trade_count], and the generator is left in the state
    after that one draw. *)
Theorem ledger_records_the_draw :
  forall (G : Type) (RS : RandomSource G) (g g' : G)
    (account_balance win_rate reward_risk risk_percent : Q)
    (trade_count : nat) (df : list TradeRecord) (summary : Summary),
    run_simulation g account_balance win_rate reward_risk risk_percent
      trade_count = Return (df, summary, g') ->
    map Win_Loss df = fst (draw g trade_count win_rate) /\
    (count_wins df + count_losses df)%nat = trade_count /\
    g' = snd (draw g trade_count win_rate).
Proof.
  intros G RS g g' ab wr rr rp n df summary Hrun.
  destruct (run_simulation_inv _ _ _ _ _ _ _ _ _ Hrun)
    as (st & Hst & -> & _ & ->).
  pose proof (ledger_shape _ _ _ _ _ _ Hst) as (Hlen & _ & Hout).
  repeat split.
  - rewrite Hout. apply firstn_all2. rewrite draw_size. lia.
  - rewrite count_wins_losses. exact Hlen.
Qed.

Lemma ledger_records_the_draw_witness :
  exists df summary g',
    run_simulation (np_random_seed 5 : Scripted) 10000 (1#2) 2 (1#100) 3
      = Return (df, summary, g') /\
    map Win_Loss df = fst (draw (np_random_seed 5 : Scripted) 3 (1#2)) /\
    (count_wins df + count_losses df)%nat = 3%nat /\
    g' = snd (draw (np_random_seed 5 : Scripted) 3 (1#2)).
Proof.
  do 3 eexists. split; [vm_compute; reflexivity|].
  eapply (ledger_records_the_draw Scripted _ (np_random_seed 5) _
            10000 (1#2) 2 (1#100) 3).
  vm_compute. reflexivity.
Defined.

(** ** A balance of zero *)




(** ** Expectancy without losses *)

(** X14.  When the ledger holds no Loss record the guard of line 147
    reports an Expectancy R of 0, while the Expectancy itself is the
    win rate times the average win. *)
Theorem no_losses_expectancy_r_is_zero :
  forall (G : Type) (RS : RandomSource G) (g g' : G)
    (account_balance win_rate reward_risk risk_percent : Q)
    (trade_count : nat) (df : list TradeRecord) (summary : Summary),
    run_simulation g account_balance win_rate reward_risk risk_percent
      trade_count = Return (df, summary, g') ->
    count_losses df = 0%nat ->
    Expectancy_R summary = 0 /\
    Expectancy summary == win_rate * spec_avg_win df.
Proof.
  intros G RS g g' ab wr rr rp n df summary Hrun Hnone.
  destruct (run_simulation_inv _ _ _ _ _ _ _ _ _ Hrun)
    as (st & Hst & -> & Hsum & _).
  pose proof (ledger_shape _ _ _ _ _ _ Hst) as (Hlen & _).
  pose proof (ledger_win_count _ _ _ _ _ _ Hst) as Hwins.
  assert (Hlosses : (n - win_count st)%nat = 0%nat).
  { pose proof (count_wins_losses (results st)). lia. }
  destruct (summarize_inv _ _ _ _ _ _ Hsum) as (HE & HER & _).
  rewrite Hlosses in HE, HER. simpl in HE, HER.
  rewrite Hwins, avg_win_refines in HE.
  split; [exact HER|]. rewrite HE. ring.
Qed.

Lemma no_losses_expectancy_r_is_zero_witness :
  exists df summary g',
    run_simulation (np_random_seed 7 : Scripted) 10000 (1#2) 2 (1#100) 3
      = Return (df, summary, g') /\
    count_losses df = 0%nat /\
    Expectancy_R summary = 0 /\
    Expectancy summary == (1#2) * spec_avg_win df.
Proof.
  do 3 eexists. split; [vm_compute; reflexivity|].
  split; [reflexivity|].
  eapply (no_losses_expectancy_r_is_zero Scripted _ (np_random_seed 7) _
            10000 (1#2) 2 (1#100) 3).
  - vm_compute. reflexivity.
  - reflexivity.
Defined.

End SimulatorFurther.

(** * Further properties of the losing-streak estimator *)

Section EstimatorFurther.

Local Open Scope R_scope.

(** The formula branch, for every win rate below 1 other than 0: a
    negative win rate is not rejected. *)
Lemma losing_streak_formula_branch (win_rate : R) (sample_size : Z) :
  win_rate < 1 -> win_rate <> 0 -> (1 <= sample_size)%Z ->
  calculate_losing_streak win_rate sample_size
  = Return (PyFloat (ln (IZR sample_size) / ln (1 / (1 - win_rate)))).
Proof.
  intros Hw1 Hw0 Hn. unfold calculate_losing_streak.
  destruct (Rge_dec win_rate 1) as [H|_]; [lraR|].
  rewrite float_div_nonzero by lraR. simpl.
  pose proof (odds_positive win_rate Hw1) as Hodds.
  rewrite math_log_positive by exact Hodds. simpl.
  assert (Hden : ln (1 / (1 - win_rate)) <> 0).
  { apply ln_neq_0; [|exact Hodds]. intro H.
    apply Hw0. apply (f_equal (fun x => x * (1 - win_rate))) in H.
    unfold Rdiv in H. rewrite Rmult_assoc, Rinv_l in H by lraR. lraR. }
  destruct (Req_dec_T (ln (1 / (1 - win_rate))) 0) as [H|_];
    [contradiction|].
  rewrite math_log_positive by (apply IZR_lt; lia). simpl.
  rewrite float_div_nonzero by exact Hden. reflexivity.
Qed.

Lemma odds_increasing (w1 w2 : R) :
  w1 < w2 -> w2 < 1 -> 1 / (1 - w1) < 1 / (1 - w2).
Proof.
  intros H12 H2. unfold Rdiv. rewrite !Rmult_1_l.
  apply Rinv_lt_contravar; [|lraR].
  apply Rmult_lt_0_compat; lraR.
Qed.

Lemma ln_sample_positive (sample_size : Z) :
  (2 <= sample_size)%Z -> 0 < ln (IZR sample_size).
Proof.
  intro H. rewrite <- ln_1. apply ln_increasing; [lraR|].
  apply IZR_lt. lia.
Qed.

Lemma quotient_decreasing (a d1 d2 : R) :
  0 < a -> 0 < d1 -> d1 < d2 -> a / d2 < a / d1.
Proof.
  intros Ha Hd1 Hd. unfold Rdiv. apply Rmult_lt_compat_l; [exact Ha|].
  apply Rinv_lt_contravar; [|exact Hd].
  apply Rmult_lt_0_compat; lraR.
Qed.

(** ** The losing-streak table *)

Lemma streak_rows_formula (rates : list R) (last_rate : R)
  (sample_size : Z) :
  Forall (fun w => 0 < w < 1) rates -> last_rate >= 1 ->
  (1 <= sample_size)%Z ->
  streak_rows (rates ++ [last_rate]) sample_size
  = Return
      (map (fun w => (w, PyFloat (ln (IZR sample_size) / ln (1 / (1 - w)))))
         rates ++ [(last_rate, PyInt 0)]).
Proof.
  intros Hall Hlast Hn. induction Hall as [|w rates Hw _ IH]; simpl.
  - unfold calculate_losing_streak.
    destruct (Rge_dec last_rate 1); [reflexivity|contradiction].
  - rewrite losing_streak_formula_branch by (try lraR; lia).
    simpl. rewrite IH. reflexivity.
Qed.

Lemma probed_rates :
  win_rates = removelast win_rates ++ [1.00] /\
  length (removelast win_rates) = 19%nat /\
  Forall (fun w => 0 < w < 1) (removelast win_rates) /\
  (forall i a b, nth_error (removelast win_rates) i = Some a ->
     nth_error (removelast win_rates) (S i) = Some b -> a < b).
Proof.
  unfold win_rates. cbn [removelast]. repeat split.
  - repeat (constructor; [lraR|]). constructor.
  - intros i a b Ha Hb.
    do 19 (destruct i as [|i];
           [cbn in Ha, Hb; inversion Ha; inversion Hb; subst; lraR|]).
    destruct i; discriminate.
Qed.

(** X20.  For a sample of at least 2 trades the losing-streak table is
    computed without an exception: one row per probed win rate, in
    order, with finite positive estimates that fall strictly from each
    row to the next, down to the integer 0 in the last row (win rate
    100%). *)
Theorem losing_streak_table_rows :
  forall sample_size : Z,
    (2 <= sample_size)%Z ->
    exists xs : list R,
      losing_streak_table sample_size
      = Return (combine win_rates (map PyFloat xs ++ [PyInt 0])) /\
      length xs = 19%nat /\
      Forall (fun x => 0 < x) xs /\
      (forall i x y, nth_error xs i = Some x ->
         nth_error xs (S i) = Some y -> y < x).
Proof.
  intros n Hn.
  destruct probed_rates as (Hsplit & Hlen & Hall & Hinc).
  set (f := fun w : R => ln (IZR n) / ln (1 / (1 - w))).
  exists (map f (removelast win_rates)).
  pose proof (ln_sample_positive n Hn) as Hnum.
  assert (Hcombine : forall (l : list R) (w : R),
    combine (l ++ [w]) (map PyFloat (map f l) ++ [PyInt 0])
    = map (fun w => (w, PyFloat (f w))) l ++ [(w, PyInt 0)]).
  { intros l w. induction l as [|a l IH]; simpl; [reflexivity|].
    now rewrite IH. }
  split; [|split; [|split]].
  - unfold losing_streak_table. rewrite Hsplit at 1 2.
    rewrite streak_rows_formula by (try exact Hall; try lraR; lia).
    rewrite Hcombine. reflexivity.
  - now rewrite length_map.
  - apply Forall_map. eapply Forall_impl; [|exact Hall].
    intros w Hw. unfold f. apply Rdiv_lt_0_compat; [exact Hnum|].
    now apply denominator_positive.
  - intros i x y Hx Hy.
    rewrite nth_error_map in Hx, Hy.
    destruct (nth_error (removelast win_rates) i) as [a|] eqn:Ha;
      [|discriminate].
    destruct (nth_error (removelast win_rates) (S i)) as [b|] eqn:Hb;
      [|discriminate].
    inversion Hx; inversion Hy; subst; clear Hx Hy.
    rewrite Forall_forall in Hall.
    pose proof (Hall a (nth_error_In _ _ Ha)) as Hra.
    pose proof (Hall b (nth_error_In _ _ Hb)) as Hrb.
    pose proof (Hinc i a b Ha Hb) as Hab.
    unfold f. apply quotient_decreasing; [exact Hnum| |].
    + now apply denominator_positive.
    + apply ln_increasing; [apply odds_positive; lraR|].
      apply odds_increasing; lraR.
Qed.

Lemma losing_streak_table_rows_witness :
  exists xs : list R,
    losing_streak_table 100
    = Return (combine win_rates (map PyFloat xs ++ [PyInt 0])) /\
    length xs = 19%nat /\
    Forall (fun x => 0 < x) xs /\
    (forall i x y, nth_error xs i = Some x ->
       nth_error xs (S i) = Some y -> y < x).
Proof.
  apply (losing_streak_table_rows 100). lia.
Defined.

End EstimatorFurther.

(** * Binary64: the order of doubles

    [<], [<=] and [==] on doubles, read through their specification
    [SFcompare]: a strict order with NaN comparable to nothing. *)

Section Binary64Order.

Local Open Scope float_scope.

Ltac compare_cases :=
  repeat match goal with
  | |- context [Z.compare ?a ?b] => destruct (Z.compare_spec a b)
  | H : context [Z.compare ?a ?b] |- _ => destruct (Z.compare_spec a b)
  | |- context [Pos.compare_cont Eq ?a ?b] =>
      change (Pos.compare_cont Eq a b) with (Pos.compare a b);
      destruct (Pos.compare_spec a b)
  | H : context [Pos.compare_cont Eq ?a ?b] |- _ =>
      change (Pos.compare_cont Eq a b) with (Pos.compare a b) in H;
      destruct (Pos.compare_spec a b)
  end;
  simpl in *; try discriminate; try reflexivity; try (exfalso; lia).

Lemma SFcompare_refl (x : spec_float) :
  x <> S754_nan -> SFcompare x x = Some Eq.
Proof.
  destruct x as [[]|[]| |[] m e]; simpl; intro H; try reflexivity;
    try (now contradiction H); compare_cases.
Qed.

Lemma SFcompare_lt_gt (x y : spec_float) :
  SFcompare x y = Some Lt <-> SFcompare y x = Some Gt.
Proof.
  destruct x as [[]|[]| |[] mx ex], y as [[]|[]| |[] my ey]; simpl;
    split; intro H; try discriminate; try reflexivity; compare_cases.
Qed.

Lemma SFcompare_eq_sym (x y : spec_float) :
  SFcompare x y = Some Eq -> SFcompare y x = Some Eq.
Proof.
  destruct x as [[]|[]| |[] mx ex], y as [[]|[]| |[] my ey]; simpl;
    intro H; try discriminate; try reflexivity; compare_cases.
Qed.

Lemma SFcompare_lt_trans (x y z : spec_float) :
  SFcompare x y = Some Lt -> SFcompare y z = Some Lt ->
  SFcompare x z = Some Lt.
Proof.
  destruct x as [[]|[]| |[] mx ex], y as [[]|[]| |[] my ey],
    z as [[]|[]| |[] mz ez]; simpl;
    intros H1 H2; try discriminate; try reflexivity; compare_cases.
Qed.

Lemma SFcompare_lt_eq_trans (x y z : spec_float) :
  SFcompare x y = Some Lt -> SFcompare y z = Some Eq ->
  SFcompare x z = Some Lt.
Proof.
  destruct x as [[]|[]| |[] mx ex], y as [[]|[]| |[] my ey],
    z as [[]|[]| |[] mz ez]; simpl;
    intros H1 H2; try discriminate; try reflexivity; compare_cases.
Qed.

Lemma SFcompare_eq_lt_trans (x y z : spec_float) :
  SFcompare x y = Some Eq -> SFcompare y z = Some Lt ->
  SFcompare x z = Some Lt.
Proof.
  destruct x as [[]|[]| |[] mx ex], y as [[]|[]| |[] my ey],
    z as [[]|[]| |[] mz ez]; simpl;
    intros H1 H2; try discriminate; try reflexivity; compare_cases.
Qed.

Lemma SFcompare_eq_trans (x y z : spec_float) :
  SFcompare x y = Some Eq -> SFcompare y z = Some Eq ->
  SFcompare x z = Some Eq.
Proof.
  destruct x as [[]|[]| |[] mx ex], y as [[]|[]| |[] my ey],
    z as [[]|[]| |[] mz ez]; simpl;
    intros H1 H2; try discriminate; try reflexivity; compare_cases.
Qed.

Lemma SFcompare_total (x y : spec_float) :
  x <> S754_nan -> y <> S754_nan -> exists c, SFcompare x y = Some c.
Proof.
  destruct x as [[]|[]| |[] mx ex], y as [[]|[]| |[] my ey]; simpl;
    intros Hx Hy; try (now contradiction Hx); try (now contradiction Hy);
    eauto.
Qed.

Lemma ltb_iff (x y : float) :
  (x <? y) = true <-> SFcompare (Prim2SF x) (Prim2SF y) = Some Lt.
Proof.
  rewrite FloatAxioms.ltb_spec. unfold SFltb.
  destruct (SFcompare (Prim2SF x) (Prim2SF y)) as [[]|];
    split; intro H; try discriminate; reflexivity.
Qed.

Lemma leb_iff (x y : float) :
  (x <=? y) = true <->
  SFcompare (Prim2SF x) (Prim2SF y) = Some Lt \/
  SFcompare (Prim2SF x) (Prim2SF y) = Some Eq.
Proof.
  rewrite FloatAxioms.leb_spec. unfold SFleb.
  destruct (SFcompare (Prim2SF x) (Prim2SF y)) as [[]|];
    split; intro H; try discriminate; try reflexivity; auto;
    destruct H; discriminate.
Qed.

Lemma eqb_iff (x y : float) :
  (x =? y) = true <-> SFcompare (Prim2SF x) (Prim2SF y) = Some Eq.
Proof.
  rewrite FloatAxioms.eqb_spec. unfold SFeqb.
  destruct (SFcompare (Prim2SF x) (Prim2SF y)) as [[]|];
    split; intro H; try discriminate; reflexivity.
Qed.

(** [x <= x] says that [x] is a number (not NaN). *)
Lemma leb_refl_iff (x : float) :
  (x <=? x) = true <-> Prim2SF x <> S754_nan.
Proof.
  rewrite leb_iff. split.
  - intros [H|H] E; rewrite E in H; discriminate.
  - intro H. right. now apply SFcompare_refl.
Qed.

Lemma compare_number_l (x y : spec_float) (c : comparison) :
  SFcompare x y = Some c -> x <> S754_nan.
Proof. intros H E. subst x. discriminate. Qed.

Lemma compare_number_r (x y : spec_float) (c : comparison) :
  SFcompare x y = Some c -> y <> S754_nan.
Proof. intros H E. subst y. destruct x; discriminate. Qed.

Lemma ltb_irrefl (x : float) : (x <? x) = false.
Proof.
  destruct (x <? x) eqn:E; [|reflexivity].
  apply ltb_iff in E.
  rewrite (SFcompare_refl _ (compare_number_l _ _ _ E)) in E. discriminate.
Qed.

Lemma ltb_trans (x y z : float) :
  (x <? y) = true -> (y <? z) = true -> (x <? z) = true.
Proof.
  rewrite !ltb_iff. apply SFcompare_lt_trans.
Qed.

Lemma ltb_leb (x y : float) : (x <? y) = true -> (x <=? y) = true.
Proof.
  rewrite ltb_iff, leb_iff. auto.
Qed.

Lemma leb_trans (x y z : float) :
  (x <=? y) = true -> (y <=? z) = true -> (x <=? z) = true.
Proof.
  rewrite !leb_iff. intros [H1|H1] [H2|H2].
  - left. eapply SFcompare_lt_trans; eauto.
  - left. eapply SFcompare_lt_eq_trans; eauto.
  - left. eapply SFcompare_eq_lt_trans; eauto.
  - right. eapply SFcompare_eq_trans; eauto.
Qed.

Lemma ltb_leb_trans (x y z : float) :
  (x <? y) = true -> (y <=? z) = true -> (x <? z) = true.
Proof.
  rewrite !ltb_iff, leb_iff. intros H1 [H2|H2].
  - eapply SFcompare_lt_trans; eauto.
  - eapply SFcompare_lt_eq_trans; eauto.
Qed.

Lemma leb_ltb_trans (x y z : float) :
  (x <=? y) = true -> (y <? z) = true -> (x <? z) = true.
Proof.
  rewrite !ltb_iff, leb_iff. intros [H1|H1] H2.
  - eapply SFcompare_lt_trans; eauto.
  - eapply SFcompare_eq_lt_trans; eauto.
Qed.

Lemma leb_number_l (x y : float) : (x <=? y) = true -> (x <=? x) = true.
Proof.
  rewrite leb_refl_iff, leb_iff.
  intros [H|H]; eapply compare_number_l; eauto.
Qed.

Lemma leb_number_r (x y : float) : (x <=? y) = true -> (y <=? y) = true.
Proof.
  rewrite leb_refl_iff, leb_iff.
  intros [H|H]; eapply compare_number_r; eauto.
Qed.

(** Two numbers are comparable: [not (y < x)] gives [x <= y]. *)
Lemma not_ltb_leb (x y : float) :
  (x <=? x) = true -> (y <=? y) = true ->
  (y <? x) = false -> (x <=? y) = true.
Proof.
  rewrite !leb_refl_iff. intros Hx Hy Hlt.
  destruct (SFcompare_total _ _ Hx Hy) as [c Hc].
  apply leb_iff. destruct c; auto.
  apply SFcompare_lt_gt in Hc. apply ltb_iff in Hc. congruence.
Qed.

Lemma ltb_not_eqb (x y : float) : (x <? y) = true -> (y =? x) = false.
Proof.
  intro H. destruct (y =? x) eqn:E; [|reflexivity].
  apply ltb_iff in H. apply eqb_iff in E.
  pose proof (SFcompare_lt_eq_trans _ _ _ H E) as H'.
  rewrite (SFcompare_refl _ (compare_number_l _ _ _ H')) in H'.
  discriminate.
Qed.

Lemma ltb_not_leb (x y : float) : (x <? y) = true -> (y <=? x) = false.
Proof.
  intro H. destruct (y <=? x) eqn:E; [|reflexivity].
  pose proof (ltb_leb_trans _ _ _ H E) as H'.
  rewrite ltb_irrefl in H'. discriminate.
Qed.

End Binary64Order.

(** * Binary64: signs of differences, quotients and products *)

Section Binary64Signs.

Local Open Scope Z_scope.




Lemma digits2_pos_bounds (p : positive) :
  2 ^ (Zpos (digits2_pos p) - 1) <= Zpos p < 2 ^ Zpos (digits2_pos p).
Proof.
  induction p as [p IH|p IH|]; simpl digits2_pos.
  - rewrite Pos2Z.inj_succ.
    replace (Z.succ (Zpos (digits2_pos p)) - 1)
      with (Z.succ (Zpos (digits2_pos p) - 1)) by lia.
    rewrite !Z.pow_succ_r by lia. lia.
  - rewrite Pos2Z.inj_succ.
    replace (Z.succ (Zpos (digits2_pos p)) - 1)
      with (Z.succ (Zpos (digits2_pos p) - 1)) by lia.
    rewrite !Z.pow_succ_r by lia. lia.
  - simpl. lia.
Qed.

(** What validity says of a finite double [m * 2 ^ e]. *)
Lemma valid_finite (s : bool) (m : positive) (e : Z) :
  valid_binary (S754_finite s m e) = true ->
  -1074 <= e /\
  Zpos (digits2_pos m) <= 53 /\
  (-1074 < e -> Zpos (digits2_pos m) = 53).
Proof.
  simpl. unfold bounded, canonical_mantissa, fexp, SpecFloat.emin, prec, emax.
  intro H. apply andb_true_iff in H. destruct H as [H _].
  apply Z.eqb_eq in H. unfold SpecFloat.fexp, SpecFloat.emin in H. lia.
Qed.

Lemma iter_xO (m d : positive) :
  Zpos (Pos.iter xO m d) = Zpos m * 2 ^ Zpos d.
Proof.
  induction d as [|d IH] using Pos.peano_ind.
  - simpl. lia.
  - rewrite Pos.iter_succ, Pos2Z.inj_succ, Z.pow_succ_r by lia.
    rewrite Pos2Z.inj_xO, IH. lia.
Qed.

Lemma shl_align_value (m : positive) (e ez : Z) :
  ez <= e ->
  Zpos (fst (shl_align m e ez)) = Zpos m * 2 ^ (e - ez).
Proof.
  intro H. unfold shl_align.
  destruct (ez - e) as [|d|d] eqn:E; simpl.
  - replace (e - ez) with 0 by lia. simpl. lia.
  - lia.
  - rewrite iter_xO. rewrite <- Pos2Z.opp_pos in E.
    replace (e - ez) with (Zpos d) by lia. reflexivity.
Qed.

(** For two positive doubles, [not (p < c)] says that after alignment the
    mantissa of [c] is at most that of [p]. *)
Lemma aligned_mantissas (mp mc : positive) (ep ec : Z) :
  valid_binary (S754_finite false mp ep) = true ->
  valid_binary (S754_finite false mc ec) = true ->
  SFcompare (S754_finite false mp ep) (S754_finite false mc ec)
    <> Some Lt ->
  Zpos (fst (shl_align mc ec (Z.min ep ec)))
  <= Zpos (fst (shl_align mp ep (Z.min ep ec))).
Proof.
  intros Vp Vc Hcmp.
  apply valid_finite in Vp, Vc.
  destruct Vp as (Vp1 & Vp2 & Vp3), Vc as (Vc1 & Vc2 & Vc3).
  rewrite !shl_align_value by lia.
  pose proof (digits2_pos_bounds mp) as Bp.
  pose proof (digits2_pos_bounds mc) as Bc.
  simpl in Hcmp.
  destruct (Z.compare_spec ep ec) as [E|E|E].
  - subst ec. rewrite Z.min_id, Z.sub_diag. simpl.
    change (Pos.compare_cont Eq mp mc) with (Pos.compare mp mc) in Hcmp.
    destruct (Pos.compare_spec mp mc) as [F|F|F];
      [subst; lia|now contradiction Hcmp|lia].
  - now contradiction Hcmp.
  - rewrite Z.min_r by lia. rewrite Z.sub_diag. simpl (2 ^ 0).
    rewrite (Vp3 ltac:(lia)) in Bp.
    assert (H2 : 2 ^ 1 <= 2 ^ (ep - ec))
      by (apply Z.pow_le_mono_r; lia).
    assert (H53 : Zpos mc < 2 ^ 53).
    { eapply Z.lt_le_trans; [apply Bc|].
      apply Z.pow_le_mono_r; lia. }
    change (2 ^ (53 - 1)) with 4503599627370496 in Bp.
    change (2 ^ 53) with 9007199254740992 in H53.
    change (2 ^ 1) with 2 in H2. nia.
Qed.





Lemma valid_finite_exponent (s : bool) (m : positive) (e : Z) :
  valid_binary (S754_finite s m e) = true -> e <= 971.
Proof.
  simpl. unfold bounded. intro H.
  apply andb_true_iff in H. destruct H as [_ H].
  apply Z.leb_le in H. exact H.
Qed.

(** The strict counterpart of [aligned_mantissas]. *)
Lemma aligned_mantissas_lt (mp mc : positive) (ep ec : Z) :
  valid_binary (S754_finite false mp ep) = true ->
  valid_binary (S754_finite false mc ec) = true ->
  SFcompare (S754_finite false mp ep) (S754_finite false mc ec)
    = Some Gt ->
  Zpos (fst (shl_align mc ec (Z.min ep ec)))
  < Zpos (fst (shl_align mp ep (Z.min ep ec))).
Proof.
  intros Vp Vc Hcmp.
  apply valid_finite in Vp, Vc.
  destruct Vp as (Vp1 & Vp2 & Vp3), Vc as (Vc1 & Vc2 & Vc3).
  rewrite !shl_align_value by lia.
  pose proof (digits2_pos_bounds mp) as Bp.
  pose proof (digits2_pos_bounds mc) as Bc.
  simpl in Hcmp.
  destruct (Z.compare_spec ep ec) as [E|E|E].
  - subst ec. rewrite Z.min_id, Z.sub_diag. simpl.
    change (Pos.compare_cont Eq mp mc) with (Pos.compare mp mc) in Hcmp.
    destruct (Pos.compare_spec mp mc) as [F|F|F];
      [discriminate|discriminate|lia].
  - discriminate.
  - rewrite Z.min_r by lia. rewrite Z.sub_diag. simpl (2 ^ 0).
    rewrite (Vp3 ltac:(lia)) in Bp.
    assert (H2 : 2 ^ 1 <= 2 ^ (ep - ec))
      by (apply Z.pow_le_mono_r; lia).
    assert (H53 : Zpos mc < 2 ^ 53).
    { eapply Z.lt_le_trans; [apply Bc|].
      apply Z.pow_le_mono_r; lia. }
    change (2 ^ (53 - 1)) with 4503599627370496 in Bp.
    change (2 ^ 53) with 9007199254740992 in H53.
    change (2 ^ 1) with 2 in H2. nia.
Qed.

End Binary64Signs.

(** * Binary64: rounding a positive integer *)

Section Binary64Rounding.

Local Open Scope Z_scope.

Lemma iter_pos_invariant {A : Type} (P : A -> Prop) (f : A -> A) :
  (forall x, P x -> P (f x)) ->
  forall (p : positive) (x : A), P x -> P (SpecFloat.iter_pos f p x).
Proof.
  intros Hf p. induction p as [p IH|p IH|]; intros x Hx; simpl; auto.
Qed.

Lemma shr_1_half (r : shr_record) :
  0 <= shr_m r -> shr_m (shr_1 r) = shr_m r / 2.
Proof.
  destruct r as [m b s]. cbn [shr_m]. intro H.
  destruct m as [|[p|p|]|p]; unfold shr_1; cbn [shr_m];
    try reflexivity; try lia.
  - apply (Z.div_unique (Zpos p~1) 2 (Zpos p) 1); lia.
  - apply (Z.div_unique (Zpos p~0) 2 (Zpos p) 0); lia.
Qed.

Lemma shr_1_nonneg (r : shr_record) : 0 <= shr_m r -> 0 <= shr_m (shr_1 r).
Proof.
  intro H. rewrite shr_1_half by exact H. apply Z.div_pos; lia.
Qed.

Lemma iter_shr_1 (p : positive) :
  forall r : shr_record, 0 <= shr_m r ->
    shr_m (SpecFloat.iter_pos shr_1 p r) = shr_m r / 2 ^ Zpos p.
Proof.
  assert (Hnn : forall (q : positive) (x : shr_record),
            0 <= shr_m x -> 0 <= shr_m (SpecFloat.iter_pos shr_1 q x)).
  { intros q. apply (iter_pos_invariant (fun x => 0 <= shr_m x)).
    exact shr_1_nonneg. }
  induction p as [p IH|p IH|]; intros r Hr; cbn [SpecFloat.iter_pos];
    try assert (Hp : 0 < 2 ^ Zpos p) by (apply Z.pow_pos_nonneg; lia).
  - rewrite IH by (apply Hnn, shr_1_nonneg, Hr).
    rewrite IH by (apply shr_1_nonneg, Hr).
    rewrite shr_1_half by exact Hr.
    rewrite !Z.div_div by lia.
    f_equal.
    replace (Zpos p~1) with (1 + Zpos p + Zpos p) by lia.
    rewrite !Z.pow_add_r by lia. change (2 ^ 1) with 2. lia.
  - rewrite IH by (apply Hnn, Hr). rewrite IH by exact Hr.
    rewrite Z.div_div by lia.
    f_equal.
    replace (Zpos p~0) with (Zpos p + Zpos p) by lia.
    rewrite Z.pow_add_r by lia. reflexivity.
  - rewrite shr_1_half by exact Hr. reflexivity.
Qed.

Lemma shr_record_of_loc_m (m : Z) (l : location) :
  shr_m (shr_record_of_loc m l) = m.
Proof.
  destruct l as [|[]]; reflexivity.
Qed.

(** Shifting a positive mantissa to its place, from an exponent that is
    at least [emin], leaves a positive mantissa. *)
Lemma shr_fexp_positive (m : positive) (e : Z) (l : location) :
  -1074 <= e ->
  0 < shr_m (fst (shr_fexp prec emax (Zpos m) e l)) /\
  e <= snd (shr_fexp prec emax (Zpos m) e l).
Proof.
  intro He. unfold shr_fexp, shr. simpl Zdigits2.
  pose proof (digits2_pos_bounds m) as B.
  destruct (SpecFloat.fexp prec emax (Zpos (digits2_pos m) + e) - e)
    as [|k|k] eqn:E; simpl fst; simpl snd.
  - rewrite shr_record_of_loc_m. lia.
  - unfold SpecFloat.fexp, SpecFloat.emin, prec, emax in E.
    rewrite iter_shr_1 by (rewrite shr_record_of_loc_m; lia).
    rewrite shr_record_of_loc_m. split; [|lia].
    apply Z.div_str_pos. split; [apply Z.pow_pos_nonneg; lia|].
    eapply Z.le_trans; [|apply B].
    apply Z.pow_le_mono_r; lia.
  - rewrite shr_record_of_loc_m. lia.
Qed.

Lemma round_nearest_even_positive (m : Z) (l : location) :
  0 < m -> 0 < round_nearest_even m l.
Proof.
  intro H. destruct l as [|[]]; simpl; try lia.
  destruct (Z.even m); lia.
Qed.

(** Hence rounding [m * 2 ^ e] with [emin <= e] gives a number of the
    same sign or an infinity of that sign: never a zero, never NaN. *)
Lemma binary_round_aux_positive (sx : bool) (m : positive) (e : Z)
  (l : location) :
  -1074 <= e ->
  match binary_round_aux prec emax sx (Zpos m) e l with
  | S754_finite s _ _ | S754_infinity s => s = sx
  | _ => False
  end.
Proof.
  intro He. unfold binary_round_aux.
  destruct (shr_fexp_positive m e l He) as [H1 H1'].
  destruct (shr_fexp prec emax (Zpos m) e l) as [mrs' e'].
  simpl fst in H1. simpl snd in H1'.
  pose proof (round_nearest_even_positive _ (loc_of_shr_record mrs') H1)
    as H2.
  destruct (round_nearest_even (shr_m mrs') (loc_of_shr_record mrs'))
    as [|m2|m2]; try lia.
  destruct (shr_fexp_positive m2 e' loc_Exact ltac:(lia)) as [H3 _].
  destruct (shr_fexp prec emax (Zpos m2) e' loc_Exact) as [mrs'' e''].
  simpl fst in H3.
  destruct (shr_m mrs''); try lia.
  destruct (e'' <=? emax - prec); reflexivity.
Qed.

Lemma binary_round_positive (sx : bool) (m : positive) (e : Z) :
  -1074 <= e ->
  match binary_round prec emax sx m e with
  | S754_finite s _ _ | S754_infinity s => s = sx
  | _ => False
  end.
Proof.
  intro He. unfold binary_round, shl_align.
  destruct (SpecFloat.fexp prec emax (Zpos (digits2_pos m) + e) - e)
    as [|k|k] eqn:E.
  - now apply binary_round_aux_positive.
  - now apply binary_round_aux_positive.
  - apply binary_round_aux_positive.
    unfold SpecFloat.fexp, SpecFloat.emin, prec, emax. lia.
Qed.











(** ** Rounding a number below one *)

Lemma round_nearest_even_bounds (m : Z) (l : location) :
  m <= round_nearest_even m l <= m + 1.
Proof.
  destruct l as [|[]]; simpl; try lia.
  destruct (Z.even m); lia.
Qed.

(** Shifting [m * 2 ^ e <= 1] to its place leaves a mantissa and an
    exponent with the same bound. *)
Lemma shr_fexp_small (m : positive) (e : Z) (l : location) :
  -1074 <= e <= 0 -> Zpos m <= 2 ^ (- e) ->
  0 < shr_m (fst (shr_fexp prec emax (Zpos m) e l)) /\
  e <= snd (shr_fexp prec emax (Zpos m) e l) <= 0 /\
  (Zpos m < 2 ^ (- e) ->
   shr_m (fst (shr_fexp prec emax (Zpos m) e l))
   < 2 ^ (- snd (shr_fexp prec emax (Zpos m) e l))).
Proof.
  intros He Hm.
  destruct (shr_fexp_positive m e l ltac:(lia)) as (Hpos & Hle).
  split; [exact Hpos|]. clear Hpos Hle.
  unfold shr_fexp, shr. simpl Zdigits2.
  pose proof (digits2_pos_bounds m) as B.
  assert (Hp : 0 < 2 ^ (- e)) by (apply Z.pow_pos_nonneg; lia).
  assert (Hd : Zpos (digits2_pos m) <= - e + 1).
  { destruct (Z.le_gt_cases (Zpos (digits2_pos m) - 1) (- e)) as [H|H];
      [lia|].
    exfalso.
    assert (H' : 2 ^ (- e + 1) <= 2 ^ (Zpos (digits2_pos m) - 1))
      by (apply Z.pow_le_mono_r; lia).
    rewrite Z.pow_add_r in H' by lia. change (2 ^ 1) with 2 in H'. lia. }
  destruct (SpecFloat.fexp prec emax (Zpos (digits2_pos m) + e) - e)
    as [|k|k] eqn:E; simpl fst; simpl snd;
    try (rewrite shr_record_of_loc_m; split; [lia|tauto]).
  unfold SpecFloat.fexp, SpecFloat.emin, prec, emax in E.
  rewrite iter_shr_1 by (rewrite shr_record_of_loc_m; lia).
  rewrite shr_record_of_loc_m.
  assert (He' : e + Zpos k <= 0) by lia.
  split; [lia|]. intro Hlt.
  assert (Hk : 0 < 2 ^ Zpos k) by (apply Z.pow_pos_nonneg; lia).
  assert (Hpow : 2 ^ (- e) = 2 ^ Zpos k * 2 ^ (- (e + Zpos k))).
  { rewrite <- Z.pow_add_r by lia. f_equal. lia. }
  apply Z.div_lt_upper_bound; [exact Hk|]. lia.
Qed.

(** Rounding [m * 2 ^ e < 1] gives a finite double: no overflow, and
    with the exponent at least [emin] no zero. *)
Lemma binary_round_aux_small (sx : bool) (m : positive) (e : Z)
  (l : location) :
  -1074 <= e <= 0 -> Zpos m < 2 ^ (- e) ->
  exists m' e',
    binary_round_aux prec emax sx (Zpos m) e l = S754_finite sx m' e'.
Proof.
  intros He Hm. unfold binary_round_aux.
  destruct (shr_fexp_small m e l He ltac:(lia)) as (H1 & H1e & H1s).
  specialize (H1s Hm).
  destruct (shr_fexp prec emax (Zpos m) e l) as [mrs' e'].
  simpl fst in *. simpl snd in *.
  pose proof (round_nearest_even_bounds (shr_m mrs')
                (loc_of_shr_record mrs')) as H2.
  destruct (round_nearest_even (shr_m mrs') (loc_of_shr_record mrs'))
    as [|m2|m2]; try lia.
  destruct (shr_fexp_small m2 e' loc_Exact ltac:(lia) ltac:(lia))
    as (H3 & H3e & _).
  destruct (shr_fexp prec emax (Zpos m2) e' loc_Exact) as [mrs'' e''].
  simpl fst in *. simpl snd in *.
  destruct (shr_m mrs'') as [|m3|m3]; try lia.
  replace (e'' <=? emax - prec) with true; [now exists m3, e''|].
  symmetry. apply Z.leb_le. unfold emax, prec. lia.
Qed.

Lemma binary_round_small (sx : bool) (p : positive) (e : Z) :
  -1074 <= e <= 0 -> Zpos p < 2 ^ (- e) ->
  exists m' e', binary_round prec emax sx p e = S754_finite sx m' e'.
Proof.
  intros He Hp. unfold binary_round, shl_align.
  destruct (SpecFloat.fexp prec emax (Zpos (digits2_pos p) + e) - e)
    as [|k|k] eqn:E.
  - now apply binary_round_aux_small.
  - now apply binary_round_aux_small.
  - apply binary_round_aux_small;
      unfold SpecFloat.fexp, SpecFloat.emin, prec, emax in E |- *; [lia|].
    rewrite iter_xO.
    assert (Hk : 0 < 2 ^ Zpos k) by (apply Z.pow_pos_nonneg; lia).
    replace (- Z.max (Zpos (digits2_pos p) + e - 53) (3 - 1024 - 53))
      with (- e + Zpos k) by lia.
    rewrite Z.pow_add_r by lia. nia.
Qed.

End Binary64Rounding.

(** * Binary64: the facts the simulator needs *)

Section Binary64Arithmetic.

Local Open Scope float_scope.

Lemma Prim2SF_zero : Prim2SF 0 = S754_zero false.
Proof. reflexivity. Qed.

Lemma Prim2SF_one : Prim2SF 1 = S754_finite false 4503599627370496 (-52).
Proof. reflexivity. Qed.


(** [0 < x] says that [x] is a positive number or plus infinity. *)
Lemma positive_number_ltb (x : float) :
  (0 <? x) = true <-> positive_number (Prim2SF x) = true.
Proof.
  rewrite FloatAxioms.ltb_spec, Prim2SF_zero. unfold SFltb.
  destruct (Prim2SF x) as [[]|[]| |[] m e]; simpl; split; intro H;
    try discriminate; reflexivity.
Qed.


(** [0 <= x] says that [x] is a zero, a positive number or plus
    infinity. *)
Lemma leb_zero (x : float) :
  (0 <=? x) = true <->
  match Prim2SF x with
  | S754_zero _ | S754_finite false _ _ | S754_infinity false => True
  | _ => False
  end.
Proof.
  rewrite FloatAxioms.leb_spec, Prim2SF_zero. unfold SFleb.
  destruct (Prim2SF x) as [[]|[]| |[] m e]; simpl; split; intro H;
    try discriminate; try contradiction; try reflexivity; exact I.
Qed.


(** [1 + x] is not zero for a positive [x]. *)
Lemma one_plus_positive (x : float) :
  (0 <? x) = true -> (1 + x =? 0) = false.
Proof.
  intro Hx. apply positive_number_ltb in Hx.
  rewrite FloatAxioms.eqb_spec, FloatAxioms.add_spec, Prim2SF_zero,
    Prim2SF_one.
  pose proof (FloatAxioms.Prim2SF_valid x) as V.
  destruct (Prim2SF x) as [[]|[]| |[] m e]; try discriminate;
    [reflexivity|].
  apply valid_finite in V. destruct V as (He & _).
  unfold SF64add, SFadd. cbv zeta. unfold cond_Zopp.
  destruct (fst (shl_align 4503599627370496 (-52) (Z.min (-52) e)))
    as [a|a|];
    destruct (fst (shl_align m e (Z.min (-52) e))) as [b|b|];
    cbn [Z.add binary_normalize];
    match goal with
    | |- SFeqb (binary_round _ _ ?s ?p ?z) _ = false =>
        pose proof (binary_round_positive s p z ltac:(lia)) as R;
        destruct (binary_round prec emax s p z); try contradiction;
        subst; reflexivity
    end.
Qed.

(** [1 - w] is a number that is not below zero when [0 < w <= 1]. *)
Lemma one_minus_rate (w : float) :
  (0 <? w) = true -> (w <=? 1) = true -> (0 <=? 1 - w) = true.
Proof.
  intros H0 H1. apply positive_number_ltb in H0.
  apply leb_iff in H1. rewrite Prim2SF_one in H1.
  apply leb_zero. rewrite FloatAxioms.sub_spec, Prim2SF_one.
  pose proof (FloatAxioms.Prim2SF_valid w) as V.
  destruct (Prim2SF w) as [[]|[]| |[] m e]; try discriminate.
  { destruct H1 as [H1|H1]; discriminate. }
  assert (Hcmp : SFcompare (S754_finite false 4503599627370496 (-52))
                   (S754_finite false m e) <> Some Lt).
  { intro E. apply SFcompare_lt_gt in E.
    destruct H1 as [H1|H1]; congruence. }
  pose proof (aligned_mantissas 4503599627370496 m (-52) e
                eq_refl V Hcmp) as Hle.
  apply valid_finite in V. destruct V as (He & _).
  unfold SF64sub, SFsub. cbv zeta. unfold cond_Zopp.
  destruct (Zpos (fst (shl_align 4503599627370496 (-52) (Z.min (-52) e)))
            - Zpos (fst (shl_align m e (Z.min (-52) e))))%Z as [|d|d] eqn:E.
  - exact I.
  - cbn [binary_normalize].
    pose proof (binary_round_positive false d (Z.min (-52) e) ltac:(lia))
      as R.
    destruct (binary_round prec emax false d (Z.min (-52) e));
      try contradiction; subst; exact I.
  - exfalso. lia.
Qed.





End Binary64Arithmetic.

(** * The simulator in binary64: the ledger *)

Section Binary64Ledger.

Import Binary64.
Local Open Scope float_scope.

Lemma trade64_inv (reward_risk risk_percent : float)
  (outcomes : list outcome) (i : nat) (s s' : LoopState) :
  trade reward_risk risk_percent outcomes i s = Return s' ->
  exists o r, nth_error outcomes i = Some o /\
    step_facts reward_risk risk_percent i o s r s'.
Proof.
  unfold trade. destruct (nth_error outcomes i) as [o|]; [|discriminate].
  intro H. inversion H; subst; clear H.
  eexists o, _. split; [reflexivity|].
  constructor; reflexivity.
Qed.

Lemma simulate_trades64_invariant (Inv : nat -> LoopState -> Prop)
  (account_balance reward_risk risk_percent : float)
  (outcomes : list outcome) (trade_count : nat) (st : LoopState) :
  Inv 0%nat (initial_state account_balance) ->
  (forall i o s r s', (i < trade_count)%nat -> Inv i s ->
     nth_error outcomes i = Some o ->
     step_facts reward_risk risk_percent i o s r s' -> Inv (S i) s') ->
  simulate_trades account_balance reward_risk risk_percent outcomes
    trade_count = Return st ->
  Inv trade_count st.
Proof.
  intros H0 Hstep Hrun. unfold simulate_trades, range in Hrun.
  change trade_count with (0 + trade_count)%nat.
  eapply for_each_seq_inv; [exact H0| |exact Hrun].
  intros i s s' Hi HI Hb.
  destruct (trade64_inv _ _ _ _ _ _ Hb) as (o & r & Ho & Hf).
  eapply Hstep; eauto. lia.
Qed.

Lemma simulate_trades64_returns
  (account_balance reward_risk risk_percent : float)
  (outcomes : list outcome) (trade_count : nat) :
  (trade_count <= length outcomes)%nat ->
  exists st, simulate_trades account_balance reward_risk risk_percent
               outcomes trade_count = Return st.
Proof.
  intro Hlen. unfold simulate_trades, range.
  apply for_each_seq_total. intros i s Hi. unfold trade.
  destruct (nth_error outcomes i) as [o|] eqn:E.
  - eexists. reflexivity.
  - apply nth_error_None in E. lia.
Qed.

Section WithMean.

Variable series_mean : list float -> float.

Lemma run_simulation64_inv {G : Type} `{RandomSource G} (g g' : G)
  (account_balance win_rate reward_risk risk_percent : float)
  (trade_count : nat) (df : list TradeRecord) (summary : Summary) :
  run_simulation series_mean g account_balance win_rate reward_risk
    risk_percent trade_count = Return (df, summary, g') ->
  exists st,
    simulate_trades account_balance reward_risk risk_percent
      (fst (draw g trade_count win_rate)) trade_count = Return st /\
    df = results st /\
    summarize series_mean account_balance win_rate reward_risk
      trade_count st = Return summary /\
    g' = snd (draw g trade_count win_rate).
Proof.
  unfold run_simulation, np_random_choice.
  destruct ((0 <=? win_rate) && (0 <=? 1 - win_rate))%bool;
    simpl; [|discriminate].
  destruct (simulate_trades _ _ _ _ _) as [st|e] eqn:Hst;
    simpl; [|discriminate].
  destruct (summarize _ _ _ _ _ st) as [sm|e] eqn:Hsm; simpl;
    [|discriminate].
  intro Hr. inversion Hr; subst. exists st. repeat split; assumption.
Qed.

(** The run returns as soon as NumPy accepts the win rate and no divisor
    is zero. *)
Lemma run_simulation64_returns {G : Type} `{RandomSource G} (g : G)
  (account_balance win_rate reward_risk risk_percent : float)
  (trade_count : nat) :
  (0 <=? win_rate) = true -> (0 <=? 1 - win_rate) = true ->
  (1 <= trade_count)%nat ->
  (account_balance =? 0) = false -> (1 + reward_risk =? 0) = false ->
  exists df summary g',
    run_simulation series_mean g account_balance win_rate reward_risk
      risk_percent trade_count = Return (df, summary, g').
Proof.
  intros Hw0 Hw1 Hn Hab Hrr.
  unfold run_simulation, np_random_choice. rewrite Hw0, Hw1. simpl.
  destruct (simulate_trades64_returns account_balance reward_risk
              risk_percent (fst (draw g trade_count win_rate)) trade_count)
    as [st Hst].
  { rewrite draw_size. lia. }
  rewrite Hst. simpl. unfold summarize, int_div, py_div.
  destruct trade_count as [|n]; [lia|]. simpl.
  rewrite Hab. simpl. rewrite Hrr. simpl. eauto.
Qed.

Lemma summarize64_fields (account_balance win_rate reward_risk : float)
  (trade_count : nat) (st : LoopState) (summary : Summary) :
  summarize series_mean account_balance win_rate reward_risk trade_count st
    = Return summary ->
  (1 <= trade_count)%nat /\
  Final_Balance summary = current_balance st /\
  Profit summary = current_balance st - account_balance /\
  Return_pct summary
    = (current_balance st - account_balance) / account_balance * 100 /\
  Max_Drawdown summary = max_drawdown st /\
  Trades summary = trade_count.
Proof.
  unfold summarize, int_div, py_div. intro H.
  destruct trade_count as [|n]; [discriminate|]. simpl in H.
  destruct (account_balance =? 0); [discriminate|]. simpl in H.
  destruct (1 + reward_risk =? 0); [discriminate|]. simpl in H.
  inversion H; subst; clear H. simpl.
  repeat split. lia.
Qed.

End WithMean.

(** ** Shape, records, chain and running total *)

Lemma ledger64_shape (account_balance reward_risk risk_percent : float)
  (outcomes : list outcome) (trade_count : nat) (st : LoopState) :
  simulate_trades account_balance reward_risk risk_percent outcomes
    trade_count = Return st ->
  length (results st) = trade_count /\
  map Trade_Number (results st) = seq 1 trade_count.
Proof.
  apply (simulate_trades64_invariant (fun i s =>
    length (results s) = i /\
    map Trade_Number (results s) = seq 1 i)).
  - split; reflexivity.
  - intros i o s r s' _ (Hlen & Hnum) _ Hf.
    destruct Hf. rewrite sf_results0. split.
    + rewrite length_app. simpl. lia.
    + rewrite map_app, Hnum, seq_S. simpl.
      now rewrite sf_number0, Nat.add_comm.
Qed.

Lemma ledger64_records (account_balance reward_risk risk_percent : float)
  (outcomes : list outcome) (trade_count : nat) (st : LoopState) :
  simulate_trades account_balance reward_risk risk_percent outcomes
    trade_count = Return st ->
  Forall (fun r =>
    Risk_Amount r = Pre_Balance r * risk_percent /\
    PnL r = match Win_Loss r with
            | Win => Risk_Amount r * reward_risk
            | Loss => - Risk_Amount r
            end /\
    After_Balance r = Pre_Balance r + PnL r /\
    Drawdown r =
      (if gtb (Peak_Balance r) 0
       then (Peak_Balance r - After_Balance r) / Peak_Balance r * 100
       else 0)) (results st).
Proof.
  apply (simulate_trades64_invariant (fun _ s =>
    Forall (fun r =>
      Risk_Amount r = Pre_Balance r * risk_percent /\
      PnL r = match Win_Loss r with
              | Win => Risk_Amount r * reward_risk
              | Loss => - Risk_Amount r
              end /\
      After_Balance r = Pre_Balance r + PnL r /\
      Drawdown r =
        (if gtb (Peak_Balance r) 0
         then (Peak_Balance r - After_Balance r) / Peak_Balance r * 100
         else 0)) (results s))).
  - constructor.
  - intros i o s r s' _ IH _ Hf. destruct Hf.
    rewrite sf_results0. apply Forall_app. split; [assumption|].
    constructor; [|constructor].
    rewrite sf_outcome0, sf_pre0. repeat split; try assumption.
    now rewrite sf_after0, sf_pre0.
Qed.

Lemma ledger64_chain (account_balance reward_risk risk_percent : float)
  (outcomes : list outcome) (trade_count : nat) (st : LoopState) :
  simulate_trades account_balance reward_risk risk_percent outcomes
    trade_count = Return st ->
  current_balance st
    = last (map After_Balance (results st)) account_balance /\
  (forall r, nth_error (results st) 0 = Some r ->
     Pre_Balance r = account_balance) /\
  (forall k r r', nth_error (results st) k = Some r ->
     nth_error (results st) (S k) = Some r' ->
     Pre_Balance r' = After_Balance r).
Proof.
  intro Hrun.
  enough (length (results st) = trade_count /\
          current_balance st
            = last (map After_Balance (results st)) account_balance /\
          (forall r, nth_error (results st) 0 = Some r ->
             Pre_Balance r = account_balance) /\
          (forall k r r', nth_error (results st) k = Some r ->
             nth_error (results st) (S k) = Some r' ->
             Pre_Balance r' = After_Balance r)) by tauto.
  revert Hrun.
  apply (simulate_trades64_invariant (fun i s =>
    length (results s) = i /\
    current_balance s = last (map After_Balance (results s)) account_balance /\
    (forall r, nth_error (results s) 0 = Some r ->
       Pre_Balance r = account_balance) /\
    (forall k r r', nth_error (results s) k = Some r ->
       nth_error (results s) (S k) = Some r' ->
       Pre_Balance r' = After_Balance r))).
  - repeat split; try reflexivity.
    + intros r Hr. discriminate.
    + intros k r r' Hr. destruct k; discriminate.
  - intros i o s r0 s' _ (Hlen & Hcur & Hfirst & Hadj) _ Hf. destruct Hf.
    rewrite sf_results0. repeat split.
    + rewrite length_app. simpl. lia.
    + rewrite map_app. simpl. now rewrite last_last.
    + intros r Hr. apply nth_error_snoc in Hr.
      destruct Hr as [[_ Hr]|[Hk ->]]; [now apply Hfirst|].
      destruct (results s); [|discriminate]. now rewrite sf_pre0, Hcur.
    + intros k r r' Hr Hr'.
      apply nth_error_snoc in Hr'. destruct Hr' as [[Hlt Hr']|[Hk ->]].
      * rewrite nth_error_app1 in Hr by lia. now apply (Hadj k).
      * rewrite nth_error_app1 in Hr by lia.
        rewrite sf_pre0, Hcur. now apply (last_map_nth_error _ _ _ k).
Qed.

(** The balance after trade [k+1] is the starting balance with the P&L of
    trades [1..k+1] added to it one after the other, in trade order. *)
Lemma ledger64_running_total
  (account_balance reward_risk risk_percent : float)
  (outcomes : list outcome) (trade_count : nat) (st : LoopState) :
  simulate_trades account_balance reward_risk risk_percent outcomes
    trade_count = Return st ->
  forall k r, nth_error (results st) k = Some r ->
    After_Balance r
      = fold_left add (map PnL (firstn (S k) (results st))) account_balance.
Proof.
  intro Hrun.
  enough (current_balance st
            = fold_left add (map PnL (results st)) account_balance /\
          forall k r, nth_error (results st) k = Some r ->
            After_Balance r
              = fold_left add (map PnL (firstn (S k) (results st)))
                  account_balance) by tauto.
  revert Hrun.
  apply (simulate_trades64_invariant (fun _ s =>
    current_balance s = fold_left add (map PnL (results s)) account_balance /\
    forall k r, nth_error (results s) k = Some r ->
      After_Balance r
        = fold_left add (map PnL (firstn (S k) (results s)))
            account_balance)).
  - split; [reflexivity|]. intros [|k] r Hr; discriminate.
  - intros i o s r0 s' _ (Hcur & Hpost) _ Hf. destruct Hf.
    assert (Hnew : After_Balance r0
                   = fold_left add (map PnL (results s ++ [r0]))
                       account_balance).
    { rewrite map_app, fold_left_app. simpl.
      now rewrite sf_after0, sf_pre0, Hcur. }
    rewrite sf_results0, sf_balance0. split; [exact Hnew|].
    intros k r Hr. apply nth_error_snoc in Hr.
    destruct Hr as [[Hlt Hr]|[Hk ->]].
    + rewrite firstn_snoc_le by lia. now apply Hpost.
    + subst k. rewrite firstn_snoc_all. exact Hnew.
Qed.


(** ** Valid parameters *)

(** Valid parameters pass NumPy's check and leave no divisor zero. *)
Lemma valid_parameters64_returns (series_mean : list float -> float)
  {G : Type} `{RandomSource G} (g : G)
  (account_balance win_rate reward_risk risk_percent : float)
  (trade_count : nat) :
  valid_parameters account_balance win_rate reward_risk risk_percent
    trade_count ->
  exists df summary g',
    run_simulation series_mean g account_balance win_rate reward_risk
      risk_percent trade_count = Return (df, summary, g').
Proof.
  intros (Hab & (Hw0 & Hw1) & Hrr & _ & Hn).
  apply run_simulation64_returns.
  - now apply ltb_leb.
  - now apply one_minus_rate.
  - exact Hn.
  - now apply ltb_not_eqb.
  - now apply one_plus_positive.
Qed.

(** The run of valid parameters, with the loop state behind its ledger. *)
Lemma valid_run64 (series_mean : list float -> float)
  {G : Type} `{RandomSource G} (g : G)
  (account_balance win_rate reward_risk risk_percent : float)
  (trade_count : nat) :
  valid_parameters account_balance win_rate reward_risk risk_percent
    trade_count ->
  exists st summary g',
    run_simulation series_mean g account_balance win_rate reward_risk
      risk_percent trade_count = Return (results st, summary, g') /\
    simulate_trades account_balance reward_risk risk_percent
      (fst (draw g trade_count win_rate)) trade_count = Return st /\
    summarize series_mean account_balance win_rate reward_risk
      trade_count st = Return summary.
Proof.
  intro Hv.
  destruct (valid_parameters64_returns series_mean g _ _ _ _ _ Hv)
    as (df & summary & g' & Hrun).
  destruct (run_simulation64_inv series_mean _ _ _ _ _ _ _ _ _ Hrun)
    as (st & Hst & -> & Hsm & _).
  exists st, summary, g'. repeat split; assumption.
Qed.

(** ** The outcome column *)

Lemma ledger64_outcomes (account_balance reward_risk risk_percent : float)
  (outcomes : list outcome) (trade_count : nat) (st : LoopState) :
  simulate_trades account_balance reward_risk risk_percent outcomes
    trade_count = Return st ->
  forall k r, nth_error (results st) k = Some r ->
    nth_error outcomes k = Some (Win_Loss r).
Proof.
  intro Hrun.
  enough (length (results st) = trade_count /\
          forall k r, nth_error (results st) k = Some r ->
            nth_error outcomes k = Some (Win_Loss r)) by tauto.
  revert Hrun.
  apply (simulate_trades64_invariant (fun i s =>
    length (results s) = i /\
    forall k r, nth_error (results s) k = Some r ->
      nth_error outcomes k = Some (Win_Loss r))).
  - split; [reflexivity|]. intros [|k] r Hr; discriminate.
  - intros i o s r0 s' _ (Hlen & Hold) Ho Hf. destruct Hf.
    rewrite sf_results0. split.
    + rewrite length_app. simpl. lia.
    + intros k r Hr. apply nth_error_snoc in Hr.
      destruct Hr as [[_ Hr]|[Hk ->]]; [now apply Hold|].
      subst k. now rewrite Hlen, sf_outcome0.
Qed.

(** ** Peaks *)

Lemma number_of_ltb (x y : float) : (x <? y) = true -> (y <=? y) = true.
Proof.
  intro H. eapply leb_number_r, ltb_leb, H.
Qed.

(** What the ledger says of the record at index [k]: its peak is not below
    the starting balance, is the starting balance or one of the balances
    reached so far, and none of these exceeds it. *)
Lemma ledger64_peak_is_maximum
  (account_balance reward_risk risk_percent : float)
  (outcomes : list outcome) (trade_count : nat) (st : LoopState) :
  (0 <? account_balance) = true ->
  simulate_trades account_balance reward_risk risk_percent outcomes
    trade_count = Return st ->
  forall k r, nth_error (results st) k = Some r ->
    (account_balance <=? Peak_Balance r) = true /\
    (Peak_Balance r = account_balance \/
     exists j r0, (j <= k)%nat /\ nth_error (results st) j = Some r0 /\
       After_Balance r0 = Peak_Balance r) /\
    (forall j r0, (j <= k)%nat -> nth_error (results st) j = Some r0 ->
       gtb (After_Balance r0) (Peak_Balance r) = false).
Proof.
  intros Hab Hrun.
  pose (Q := fun (l : list TradeRecord) (k : nat) (r : TradeRecord) =>
    (account_balance <=? Peak_Balance r) = true /\
    (Peak_Balance r = account_balance \/
     exists j r0, (j <= k)%nat /\ nth_error l j = Some r0 /\
       After_Balance r0 = Peak_Balance r) /\
    (forall j r0, (j <= k)%nat -> nth_error l j = Some r0 ->
       gtb (After_Balance r0) (Peak_Balance r) = false)).
  enough (length (results st) = trade_count /\
          (account_balance <=? peak_balance st) = true /\
          (peak_balance st = account_balance \/
           exists j r0, nth_error (results st) j = Some r0 /\
             After_Balance r0 = peak_balance st) /\
          (forall j r0, nth_error (results st) j = Some r0 ->
             gtb (After_Balance r0) (peak_balance st) = false) /\
          forall k r, nth_error (results st) k = Some r ->
            Q (results st) k r) as (_ & _ & _ & _ & HQ) by exact HQ.
  revert Hrun.
  apply (simulate_trades64_invariant (fun i s =>
    length (results s) = i /\
    (account_balance <=? peak_balance s) = true /\
    (peak_balance s = account_balance \/
     exists j r0, nth_error (results s) j = Some r0 /\
       After_Balance r0 = peak_balance s) /\
    (forall j r0, nth_error (results s) j = Some r0 ->
       gtb (After_Balance r0) (peak_balance s) = false) /\
    forall k r, nth_error (results s) k = Some r -> Q (results s) k r)).
  - repeat split.
    + eapply leb_number_r, ltb_leb, Hab.
    + now left.
    + intros [|j] r0 Hr; discriminate.
    + destruct k; discriminate.
    + destruct k; discriminate.
    + destruct k; discriminate.
  - intros i o s r1 s' _ (Hlen & Hge & Hatt & Hmax & Hold) _ Hf.
    destruct Hf. unfold gtb in *.
    assert (Hstep : (peak_balance s <=? Peak_Balance r1) = true).
    { rewrite sf_peak0.
      destruct (peak_balance s <? After_Balance r1) eqn:E.
      - now apply ltb_leb.
      - eapply leb_number_r, Hge. }
    assert (Hnew : (Peak_Balance r1 <? After_Balance r1) = false).
    { rewrite sf_peak0.
      destruct (peak_balance s <? After_Balance r1) eqn:E;
        [apply ltb_irrefl|exact E]. }
    assert (Hge' : (account_balance <=? Peak_Balance r1) = true)
      by (eapply leb_trans; eassumption).
    assert (Hmax' : forall j r0,
              nth_error (results s ++ [r1]) j = Some r0 ->
              (Peak_Balance r1 <? After_Balance r0) = false).
    { intros j r0 Hr. apply nth_error_snoc in Hr.
      destruct Hr as [[_ Hr]|[_ ->]]; [|exact Hnew].
      destruct (Peak_Balance r1 <? After_Balance r0) eqn:E;
        [|reflexivity].
      rewrite <- (Hmax j r0 Hr). symmetry.
      eapply leb_ltb_trans; eassumption. }
    assert (Hatt' : Peak_Balance r1 = account_balance \/
              exists j r0, (j <= length (results s))%nat /\
                nth_error (results s ++ [r1]) j = Some r0 /\
                After_Balance r0 = Peak_Balance r1).
    { rewrite sf_peak0.
      destruct (peak_balance s <? After_Balance r1) eqn:E.
      - right. exists (length (results s)), r1. split; [lia|].
        split; [|reflexivity].
        rewrite nth_error_app2 by lia. now rewrite Nat.sub_diag.
      - destruct Hatt as [Hatt|(j & r0 & Hj & Hr0)]; [now left|].
        right. exists j, r0.
        assert (j < length (results s))%nat
          by (apply nth_error_Some; congruence).
        split; [lia|]. split; [|exact Hr0].
        now rewrite nth_error_app1 by lia. }
    rewrite sf_results0, sf_peak'0. repeat split.
    + rewrite length_app. simpl. lia.
    + exact Hge'.
    + destruct Hatt' as [Hatt'|(j & r0 & _ & Hj & Hr0)]; [now left|].
      right. now exists j, r0.
    + exact Hmax'.
    + apply nth_error_snoc in H. destruct H as [[Hlt Hr]|[Hk ->]].
      * now apply (Hold k r Hr).
      * exact Hge'.
    + apply nth_error_snoc in H. destruct H as [[Hlt Hr]|[Hk ->]].
      * destruct (Hold k r Hr) as (_ & [Hq|(j & r0 & Hj & Hr0 & Hq)] & _);
          [now left|].
        right. exists j, r0. split; [exact Hj|]. split; [|exact Hq].
        rewrite nth_error_app1; [exact Hr0|lia].
      * subst k. exact Hatt'.
    + intros j r0 Hj Hr0.
      apply nth_error_snoc in H. destruct H as [[Hlt Hr]|[Hk ->]].
      * destruct (Hold k r Hr) as (_ & _ & Hq).
        apply (Hq j r0 Hj). rewrite nth_error_app1 in Hr0 by lia.
        exact Hr0.
      * now apply (Hmax' j r0).
Qed.


(** ** Drawdowns *)


(** [Max Drawdown] is a number from zero up; it is zero or the drawdown
    of a record, and no record has a drawdown above it. *)
Lemma ledger64_max_drawdown
  (account_balance reward_risk risk_percent : float)
  (outcomes : list outcome) (trade_count : nat) (st : LoopState) :
  simulate_trades account_balance reward_risk risk_percent outcomes
    trade_count = Return st ->
  (0 <=? max_drawdown st) = true /\
  (max_drawdown st = 0 \/
   exists r, In r (results st) /\ Drawdown r = max_drawdown st) /\
  Forall (fun r => gtb (Drawdown r) (max_drawdown st) = false) (results st).
Proof.
  apply (simulate_trades64_invariant (fun _ s =>
    (0 <=? max_drawdown s) = true /\
    (max_drawdown s = 0 \/
     exists r, In r (results s) /\ Drawdown r = max_drawdown s) /\
    Forall (fun r => gtb (Drawdown r) (max_drawdown s) = false)
      (results s))).
  - repeat split; [now left|constructor].
  - intros i o s r1 s' _ (H0 & Hatt & Hmax) _ Hf.
    destruct Hf. unfold gtb in *.
    rewrite sf_results0, sf_max_drawdown0.
    destruct (max_drawdown s <? Drawdown r1) eqn:E.
    + repeat split.
      * eapply leb_trans; [exact H0|now apply ltb_leb].
      * right. exists r1. split; [|reflexivity].
        apply in_or_app. right. now left.
      * apply Forall_app. split.
        -- eapply Forall_impl; [|exact Hmax]. cbv beta.
           intros r Hr.
           destruct (Drawdown r1 <? Drawdown r) eqn:E'; [|reflexivity].
           rewrite <- Hr. symmetry. eapply ltb_trans; eassumption.
        -- constructor; [apply ltb_irrefl|constructor].
    + repeat split.
      * exact H0.
      * destruct Hatt as [Hatt|(r & Hin & Hr)]; [now left|].
        right. exists r. split; [|exact Hr].
        apply in_or_app. now left.
      * apply Forall_app. split; [exact Hmax|].
        constructor; [exact E|constructor].
Qed.


(** ** The claims on the ledger, in binary64 *)

(** C1 (as amended): for every run with valid parameters and every trade
    index i, the recorded After-Balance of trade i is its Pre-Balance plus
    its P&L, the Pre-Balance of trade i+1 is the After-Balance of trade i
    (the first Pre-Balance being account_balance), and the After-Balance
    of trade i is account_balance with the P&L of trades 1..i added to it
    one after the other in trade order, each addition rounded to a double.
    The run returns one record per trade. *)
Theorem C1_balance_bookkeeping (series_mean : list float -> float)
  {G : Type} `{RandomSource G} (g : G)
  (account_balance win_rate reward_risk risk_percent : float)
  (trade_count : nat) :
  valid_parameters account_balance win_rate reward_risk risk_percent
    trade_count ->
  exists df summary g',
    run_simulation series_mean g account_balance win_rate reward_risk
      risk_percent trade_count = Return (df, summary, g') /\
    length df = trade_count /\
    (forall r, nth_error df 0 = Some r ->
       Pre_Balance r = account_balance) /\
    (forall i r, nth_error df i = Some r ->
       After_Balance r = Pre_Balance r + PnL r /\
       After_Balance r
         = fold_left add (map PnL (firstn (S i) df)) account_balance) /\
    (forall i r r', nth_error df i = Some r ->
       nth_error df (S i) = Some r' ->
       Pre_Balance r' = After_Balance r).
Proof.
  intro Hv.
  destruct (valid_run64 series_mean g _ _ _ _ _ Hv)
    as (st & summary & g' & Hrun & Hst & _).
  exists (results st), summary, g'.
  destruct (ledger64_shape _ _ _ _ _ _ Hst) as (Hlen & _).
  destruct (ledger64_chain _ _ _ _ _ _ Hst) as (_ & Hfirst & Hadj).
  pose proof (ledger64_records _ _ _ _ _ _ Hst) as Hrec.
  pose proof (ledger64_running_total _ _ _ _ _ _ Hst) as Htot.
  rewrite Forall_forall in Hrec.
  split; [exact Hrun|]. split; [exact Hlen|]. split; [exact Hfirst|].
  split; [|exact Hadj].
  intros i r Hr. split.
  - apply nth_error_In in Hr. now destruct (Hrec r Hr) as (_ & _ & Ha & _).
  - now apply Htot.
Qed.

Lemma C1_balance_bookkeeping_witness :
  valid_parameters 1000 0.5 2 0.03 3 /\
  exists df summary g',
    run_simulation sequential_mean (np_random_seed (G := Scripted) 3)
      1000 0.5 2 0.03 3 = Return (df, summary, g') /\
    length df = 3%nat /\
    (forall i r, nth_error df i = Some r ->
       After_Balance r = Pre_Balance r + PnL r /\
       After_Balance r = fold_left add (map PnL (firstn (S i) df)) 1000) /\
    (forall i r r', nth_error df i = Some r ->
       nth_error df (S i) = Some r' ->
       Pre_Balance r' = After_Balance r).
Proof.
  assert (Hv : valid_parameters 1000 0.5 2 0.03 3)
    by (unfold valid_parameters; repeat split; try reflexivity; lia).
  split; [exact Hv|].
  destruct (C1_balance_bookkeeping sequential_mean
              (np_random_seed (G := Scripted) 3) 1000 0.5 2 0.03 3 Hv)
    as (df & summary & g' & Hrun & Hlen & _ & Hrec & Hadj).
  exists df, summary, g'.
  split; [exact Hrun|]. split; [exact Hlen|]. split; [exact Hrec|exact Hadj].
Defined.

(** C1 as stated fails: with Win, Win, Loss from 1000 at reward:risk 2 and
    3% risk, the third After-Balance is 1089.8919999999998 while
    account_balance plus the sum of the three P&L is
    1089.8920000000001. *)
Example C1_sum_of_pnl_is_not_exact :
  exists df summary g' r,
    valid_parameters 1000 0.5 2 0.03 3 /\
    run_simulation sequential_mean (np_random_seed (G := Scripted) 3)
      1000 0.5 2 0.03 3 = Return (df, summary, g') /\
    map Win_Loss df = [Win; Win; Loss] /\
    nth_error df 2 = Some r /\
    After_Balance r = 1089.8919999999998 /\
    1000 + total (map PnL (firstn 3 df)) = 1089.8920000000001 /\
    (After_Balance r =? 1000 + total (map PnL (firstn 3 df))) = false.
Proof.
  do 4 eexists.
  split; [unfold valid_parameters; repeat split; try reflexivity; lia|].
  split; [vm_compute; reflexivity|].
  split; [reflexivity|].
  split; [reflexivity|].
  split; [vm_compute; reflexivity|].
  split; vm_compute; reflexivity.
Qed.

(** C2: every run with valid parameters returns one record per trade, and
    in each the risk amount is the Pre-Balance times risk_percent, where
    the Pre-Balance is the running balance (account_balance for the first
    trade, afterwards the previous Pre-Balance plus the previous P&L), and
    the P&L is the risk amount times reward_risk when the drawn outcome is
    Win and minus the risk amount when it is Loss. *)
Theorem C2_risk_rebased_on_running_balance
  (series_mean : list float -> float)
  {G : Type} `{RandomSource G} (g : G)
  (account_balance win_rate reward_risk risk_percent : float)
  (trade_count : nat) :
  valid_parameters account_balance win_rate reward_risk risk_percent
    trade_count ->
  exists df summary g',
    run_simulation series_mean g account_balance win_rate reward_risk
      risk_percent trade_count = Return (df, summary, g') /\
    length df = trade_count /\
    (forall r, nth_error df 0 = Some r ->
       Pre_Balance r = account_balance) /\
    (forall i r r', nth_error df i = Some r ->
       nth_error df (S i) = Some r' ->
       Pre_Balance r' = Pre_Balance r + PnL r) /\
    (forall i r, nth_error df i = Some r ->
       nth_error (fst (draw g trade_count win_rate)) i
         = Some (Win_Loss r) /\
       Risk_Amount r = Pre_Balance r * risk_percent /\
       PnL r = match Win_Loss r with
               | Win => Risk_Amount r * reward_risk
               | Loss => - Risk_Amount r
               end).
Proof.
  intro Hv.
  destruct (valid_run64 series_mean g _ _ _ _ _ Hv)
    as (st & summary & g' & Hrun & Hst & _).
  exists (results st), summary, g'.
  destruct (ledger64_shape _ _ _ _ _ _ Hst) as (Hlen & _).
  destruct (ledger64_chain _ _ _ _ _ _ Hst) as (_ & Hfirst & Hadj).
  pose proof (ledger64_records _ _ _ _ _ _ Hst) as Hrec.
  pose proof (ledger64_outcomes _ _ _ _ _ _ Hst) as Hout.
  rewrite Forall_forall in Hrec.
  split; [exact Hrun|]. split; [exact Hlen|]. split; [exact Hfirst|].
  split.
  - intros i r r' Hr Hr'. rewrite (Hadj i r r' Hr Hr').
    apply nth_error_In in Hr. now destruct (Hrec r Hr) as (_ & _ & Ha & _).
  - intros i r Hr. split; [now apply Hout|].
    apply nth_error_In in Hr.
    destruct (Hrec r Hr) as (Hrisk & Hpnl & _). now split.
Qed.

Lemma C2_risk_rebased_on_running_balance_witness :
  valid_parameters 1000 0.5 2 0.03 3 /\
  exists df summary g',
    run_simulation sequential_mean (np_random_seed (G := Scripted) 3)
      1000 0.5 2 0.03 3 = Return (df, summary, g') /\
    length df = 3%nat /\
    (forall i r, nth_error df i = Some r ->
       Risk_Amount r = Pre_Balance r * 0.03 /\
       PnL r = match Win_Loss r with
               | Win => Risk_Amount r * 2
               | Loss => - Risk_Amount r
               end).
Proof.
  assert (Hv : valid_parameters 1000 0.5 2 0.03 3)
    by (unfold valid_parameters; repeat split; try reflexivity; lia).
  split; [exact Hv|].
  destruct (C2_risk_rebased_on_running_balance sequential_mean
              (np_random_seed (G := Scripted) 3) 1000 0.5 2 0.03 3 Hv)
    as (df & summary & g' & Hrun & Hlen & _ & _ & Hrec).
  exists df, summary, g'.
  split; [exact Hrun|]. split; [exact Hlen|].
  intros i r Hr. destruct (Hrec i r Hr) as (_ & Hrisk & Hpnl). now split.
Defined.







(** ** The summary and the insights, in binary64 *)

(** X3.  The summary agrees with the ledger: the run of valid parameters
    returns a ledger whose last After-Balance is the Final Balance; Profit
    is the Final Balance minus account_balance, Return is Profit over
    account_balance times 100, and Trades is the number of records. *)
Theorem summary_totals_match_ledger (series_mean : list float -> float)
  {G : Type} `{RandomSource G} (g : G)
  (account_balance win_rate reward_risk risk_percent : float)
  (trade_count : nat) :
  valid_parameters account_balance win_rate reward_risk risk_percent
    trade_count ->
  exists df summary g',
    run_simulation series_mean g account_balance win_rate reward_risk
      risk_percent trade_count = Return (df, summary, g') /\
    Final_Balance summary = last (map After_Balance df) account_balance /\
    Profit summary = Final_Balance summary - account_balance /\
    Return_pct summary = Profit summary / account_balance * 100 /\
    Trades summary = length df.
Proof.
  intro Hv.
  destruct (valid_run64 series_mean g _ _ _ _ _ Hv)
    as (st & summary & g' & Hrun & Hst & Hsm).
  exists (results st), summary, g'.
  destruct (ledger64_shape _ _ _ _ _ _ Hst) as (Hlen & _).
  destruct (ledger64_chain _ _ _ _ _ _ Hst) as (Hcur & _).
  destruct (summarize64_fields _ _ _ _ _ _ _ Hsm)
    as (_ & Hfinal & Hprofit & Hret & _ & Htrades).
  split; [exact Hrun|].
  rewrite Hprofit, Hret, Hfinal, Htrades, Hlen.
  repeat split. exact Hcur.
Qed.

Lemma summary_totals_match_ledger_witness :
  valid_parameters 10000 0.5 2 0.01 3 /\
  exists df summary g',
    run_simulation sequential_mean (np_random_seed (G := Scripted) 5)
      10000 0.5 2 0.01 3 = Return (df, summary, g') /\
    Final_Balance summary = last (map After_Balance df) 10000 /\
    Profit summary = Final_Balance summary - 10000 /\
    Return_pct summary = Profit summary / 10000 * 100 /\
    Trades summary = length df.
Proof.
  assert (Hv : valid_parameters 10000 0.5 2 0.01 3)
    by (unfold valid_parameters; repeat split; try reflexivity; lia).
  split; [exact Hv|].
  exact (summary_totals_match_ledger sequential_mean
           (np_random_seed (G := Scripted) 5) 10000 0.5 2 0.01 3 Hv).
Defined.

(** X4.  Max Drawdown bounds the Drawdown column: it is a number from zero
    up, it is zero or the Drawdown of some record, and no record has a
    Drawdown above it (a NaN drawdown is above nothing). *)
Theorem max_drawdown_bounds_column (series_mean : list float -> float)
  {G : Type} `{RandomSource G} (g : G)
  (account_balance win_rate reward_risk risk_percent : float)
  (trade_count : nat) :
  valid_parameters account_balance win_rate reward_risk risk_percent
    trade_count ->
  exists df summary g',
    run_simulation series_mean g account_balance win_rate reward_risk
      risk_percent trade_count = Return (df, summary, g') /\
    (0 <=? Max_Drawdown summary) = true /\
    (Max_Drawdown summary = 0 \/
     exists r, In r df /\ Drawdown r = Max_Drawdown summary) /\
    (forall r, In r df ->
       gtb (Drawdown r) (Max_Drawdown summary) = false).
Proof.
  intro Hv.
  destruct (valid_run64 series_mean g _ _ _ _ _ Hv)
    as (st & summary & g' & Hrun & Hst & Hsm).
  exists (results st), summary, g'.
  destruct (ledger64_max_drawdown _ _ _ _ _ _ Hst) as (H0 & Hatt & Hmax).
  destruct (summarize64_fields _ _ _ _ _ _ _ Hsm)
    as (_ & _ & _ & _ & Hmd & _).
  rewrite Forall_forall in Hmax. rewrite Hmd.
  split; [exact Hrun|]. split; [exact H0|]. split; [exact Hatt|exact Hmax].
Qed.

Lemma max_drawdown_bounds_column_witness :
  valid_parameters 10000 0.5 2 0.01 3 /\
  exists df summary g',
    run_simulation sequential_mean (np_random_seed (G := Scripted) 5)
      10000 0.5 2 0.01 3 = Return (df, summary, g') /\
    (0 <=? Max_Drawdown summary) = true /\
    (Max_Drawdown summary = 0 \/
     exists r, In r df /\ Drawdown r = Max_Drawdown summary) /\
    (forall r, In r df ->
       gtb (Drawdown r) (Max_Drawdown summary) = false).
Proof.
  assert (Hv : valid_parameters 10000 0.5 2 0.01 3)
    by (unfold valid_parameters; repeat split; try reflexivity; lia).
  split; [exact Hv|].
  exact (max_drawdown_bounds_column sequential_mean
           (np_random_seed (G := Scripted) 5) 10000 0.5 2 0.01 3 Hv).
Defined.

(** X5.  Peak Balance is the running maximum: the peak recorded with a
    trade is at least account_balance, it is account_balance or the
    After-Balance of that trade or of an earlier one, and no After-Balance
    up to that trade is above it (a NaN balance is above nothing). *)
Theorem peak_is_running_maximum (series_mean : list float -> float)
  {G : Type} `{RandomSource G} (g : G)
  (account_balance win_rate reward_risk risk_percent : float)
  (trade_count : nat) :
  valid_parameters account_balance win_rate reward_risk risk_percent
    trade_count ->
  exists df summary g',
    run_simulation series_mean g account_balance win_rate reward_risk
      risk_percent trade_count = Return (df, summary, g') /\
    forall k r, nth_error df k = Some r ->
      geb (Peak_Balance r) account_balance = true /\
      (Peak_Balance r = account_balance \/
       exists j r0, (j <= k)%nat /\ nth_error df j = Some r0 /\
         After_Balance r0 = Peak_Balance r) /\
      (forall j r0, (j <= k)%nat -> nth_error df j = Some r0 ->
         gtb (After_Balance r0) (Peak_Balance r) = false).
Proof.
  intro Hv. pose proof Hv as (Hab & _).
  destruct (valid_run64 series_mean g _ _ _ _ _ Hv)
    as (st & summary & g' & Hrun & Hst & _).
  exists (results st), summary, g'.
  split; [exact Hrun|].
  exact (ledger64_peak_is_maximum _ _ _ _ _ _ Hab Hst).
Qed.

Lemma peak_is_running_maximum_witness :
  valid_parameters 10000 0.5 2 0.01 3 /\
  exists df summary g',
    run_simulation sequential_mean (np_random_seed (G := Scripted) 5)
      10000 0.5 2 0.01 3 = Return (df, summary, g') /\
    forall k r, nth_error df k = Some r ->
      geb (Peak_Balance r) 10000 = true /\
      (Peak_Balance r = 10000 \/
       exists j r0, (j <= k)%nat /\ nth_error df j = Some r0 /\
         After_Balance r0 = Peak_Balance r) /\
      (forall j r0, (j <= k)%nat -> nth_error df j = Some r0 ->
         gtb (After_Balance r0) (Peak_Balance r) = false).
Proof.
  assert (Hv : valid_parameters 10000 0.5 2 0.01 3)
    by (unfold valid_parameters; repeat split; try reflexivity; lia).
  split; [exact Hv|].
  exact (peak_is_running_maximum sequential_mean
           (np_random_seed (G := Scripted) 5) 10000 0.5 2 0.01 3 Hv).
Defined.

(** X13.  The drawdown insight reads the ledger: after a run with valid
    parameters the page flags a high drawdown exactly when some record has
    a Drawdown above 30; and the profit flag is the sign test of the Final
    Balance minus account_balance. *)
Theorem insights_read_the_ledger (series_mean : list float -> float)
  {G : Type} `{RandomSource G} (g : G)
  (account_balance win_rate reward_risk risk_percent : float)
  (trade_count : nat) :
  valid_parameters account_balance win_rate reward_risk risk_percent
    trade_count ->
  exists df summary g',
    run_simulation series_mean g account_balance win_rate reward_risk
      risk_percent trade_count = Return (df, summary, g') /\
    (high_drawdown (insights summary) = true <->
     exists r, In r df /\ gtb (Drawdown r) 30 = true) /\
    is_profitable (insights summary)
      = gtb (last (map After_Balance df) account_balance - account_balance)
          0.
Proof.
  intro Hv.
  destruct (valid_run64 series_mean g _ _ _ _ _ Hv)
    as (st & summary & g' & Hrun & Hst & Hsm).
  exists (results st), summary, g'.
  destruct (ledger64_max_drawdown _ _ _ _ _ _ Hst) as (H0 & Hatt & Hmax).
  destruct (ledger64_chain _ _ _ _ _ _ Hst) as (Hcur & _).
  destruct (summarize64_fields _ _ _ _ _ _ _ Hsm)
    as (_ & _ & Hprofit & _ & Hmd & _).
  rewrite Forall_forall in Hmax.
  split; [exact Hrun|]. unfold insights, gtb in *. cbn [high_drawdown
    is_profitable]. rewrite Hmd, Hprofit, Hcur. split; [|reflexivity].
  split.
  - intro Hhigh. destruct Hatt as [Hz|(r & Hin & Hr)].
    + rewrite Hz in Hhigh. vm_compute in Hhigh. discriminate.
    + exists r. split; [exact Hin|]. now rewrite Hr.
  - intros (r & Hin & Hr).
    eapply ltb_leb_trans; [exact Hr|].
    apply not_ltb_leb.
    + eapply number_of_ltb, Hr.
    + eapply leb_number_r, H0.
    + now apply Hmax.
Qed.

Lemma insights_read_the_ledger_witness :
  valid_parameters 100 0.5 2 0.1 5 /\
  exists df summary g',
    run_simulation sequential_mean (np_random_seed (G := Scripted) 0)
      100 0.5 2 0.1 5 = Return (df, summary, g') /\
    (high_drawdown (insights summary) = true <->
     exists r, In r df /\ gtb (Drawdown r) 30 = true) /\
    is_profitable (insights summary)
      = gtb (last (map After_Balance df) 100 - 100) 0.
Proof.
  assert (Hv : valid_parameters 100 0.5 2 0.1 5)
    by (unfold valid_parameters; repeat split; try reflexivity; lia).
  split; [exact Hv|].
  exact (insights_read_the_ledger sequential_mean
           (np_random_seed (G := Scripted) 0) 100 0.5 2 0.1 5 Hv).
Defined.

End Binary64Ledger.
